(** * flask-task-tracker: validation layer and ownership-scoped task store

    A shallow embedding of [validations.py] and of the request handlers of
    [app.py], followed by the theorems settling the specification's claims.

    Modelling conventions.
    - A Python [str] is a list of code points.  The model covers the code
      points U+0000..U+00FF, carried by [ascii]; the character classes
      ([str.isspace], [str.isalnum], the regex class [\d]) are the ones the
      Python runtime gives on that range.
    - A value that may be [None] is an [option]; Python truthiness of an
      optional string is [truthy].
    - The wall clock is an input of every function that reads it.
    - The database is a pair of row lists; a handler maps the store to the
      store after the request, the flashed messages and the response.  An
      exception caught by a handler's [except Exception] leaves the store as
      it was before the request (rollback).  The database engine itself is
      taken as reliable: a commit stores what it is given, integers of any
      size included. *)

From Stdlib Require Import String Ascii.
From Stdlib Require Import List ZArith Lia Bool Arith.
From Stdlib Require Import Permutation Sorted.
Import ListNotations.

Set Implicit Arguments.

(* ------------------------------------------------------------------ *)
(** ** Python strings *)

Definition str := list ascii.

(** A string literal. *)
Definition py (s : string) : str := list_ascii_of_string s.

Fixpoint str_eqb (a b : str) : bool :=
  match a, b with
  | [], [] => true
  | x :: a', y :: b' => Ascii.eqb x y && str_eqb a' b'
  | _, _ => false
  end.

Definition code (c : ascii) : N := N_of_ascii c.

Definition in_range (lo hi : N) (c : ascii) : bool :=
  (N.leb lo (code c) && N.leb (code c) hi)%bool.

(** [str.isspace] on one character. *)
Definition isspace (c : ascii) : bool :=
  in_range 9 13 c || in_range 28 32 c || in_range 133 133 c
  || in_range 160 160 c.

(** The regex class [\d] and [str.isdecimal] on one character. *)
Definition isdigit (c : ascii) : bool := in_range 48 57 c.

(** [str.isalnum] on one character. *)
Definition isalnum (c : ascii) : bool :=
  in_range 48 57 c || in_range 65 90 c || in_range 97 122 c
  || in_range 170 170 c || in_range 178 179 c || in_range 181 181 c
  || in_range 185 186 c || in_range 188 190 c || in_range 192 214 c
  || in_range 216 246 c || in_range 248 255 c.

Fixpoint drop_while (f : ascii -> bool) (s : str) : str :=
  match s with
  | [] => []
  | c :: s' => if f c then drop_while f s' else s
  end.

Definition lstrip (s : str) : str := drop_while isspace s.

Definition rstrip (s : str) : str := rev (lstrip (rev s)).

(** [s.strip()] *)
Definition strip (s : str) : str := rstrip (lstrip s).

Fixpoint starts_with (p s : str) : bool :=
  match p, s with
  | [], _ => true
  | a :: p', b :: s' => Ascii.eqb a b && starts_with p' s'
  | _ :: _, [] => false
  end.

(** One left-to-right pass deleting the occurrences of [old]; [skip] counts
    the characters of the occurrence being deleted that are still ahead. *)
Fixpoint delete_scan (old : str) (skip : nat) (s : str) : str :=
  match s with
  | [] => []
  | c :: s' =>
      match skip with
      | S k => delete_scan old k s'
      | O => if starts_with old s
             then delete_scan old (pred (length old)) s'
             else c :: delete_scan old 0 s'
      end
  end.

(** [s.replace(old, '')] *)
Definition replace_empty (old s : str) : str :=
  match old with
  | [] => s
  | _ :: _ => delete_scan old 0 s
  end.

(** Truthiness of an optional string: [None] and [''] are falsy. *)
Definition truthy (v : option str) : bool :=
  match v with
  | None => false
  | Some [] => false
  | Some (_ :: _) => true
  end.

(** The string of an optional string known to be present. *)
Definition str_of (v : option str) : str :=
  match v with Some s => s | None => [] end.

(** [x in xs] for a list of strings. *)
Definition str_in (x : str) (xs : list str) : bool := existsb (str_eqb x) xs.

(* ------------------------------------------------------------------ *)
(** ** Calendar dates ([datetime.date]) *)

Record date := mkdate { year : Z; month : Z; day : Z }.

Definition is_leap (y : Z) : bool :=
  (y mod 4 =? 0)%Z && (negb (y mod 100 =? 0)%Z || (y mod 400 =? 0)%Z).

Definition days_in_month (y m : Z) : Z :=
  if (m =? 2)%Z then (if is_leap y then 29 else 28)%Z
  else if ((m =? 4) || (m =? 6) || (m =? 9) || (m =? 11))%Z then 30%Z
  else 31%Z.

Definition valid_ymd (y m d : Z) : bool :=
  ((1 <=? y) && (y <=? 9999) && (1 <=? m) && (m <=? 12)
   && (1 <=? d) && (d <=? days_in_month y m))%Z.

(** The constructor [date(y, m, d)]; [None] stands for [ValueError]. *)
Definition new_date (y m d : Z) : option date :=
  if valid_ymd y m d then Some (mkdate y m d) else None.

Definition valid_date (d : date) : Prop :=
  valid_ymd (year d) (month d) (day d) = true.

(** [a < b] on dates. *)
Definition date_ltb (a b : date) : bool :=
  ((year a <? year b)
   || ((year a =? year b)
       && ((month a <? month b)
           || ((month a =? month b) && (day a <? day b)))))%Z.

Definition days_before_year (y : Z) : Z :=
  let y' := (y - 1)%Z in (y' * 365 + y' / 4 - y' / 100 + y' / 400)%Z.

Definition days_before_month_table : list Z :=
  [0; 31; 59; 90; 120; 151; 181; 212; 243; 273; 304; 334]%Z.

Definition days_before_month (y m : Z) : Z :=
  (nth (Z.to_nat (m - 1)) days_before_month_table 0
   + (if (2 <? m) && is_leap y then 1 else 0))%Z.

(** [d.toordinal()] *)
Definition toordinal (d : date) : Z :=
  (days_before_year (year d) + days_before_month (year d) (month d) + day d)%Z.

(** [(a - b).days] *)
Definition days_between (a b : date) : Z := (toordinal a - toordinal b)%Z.

Definition digit_val (c : ascii) : Z := (Z.of_N (code c) - 48)%Z.

(** The alternatives of the [%m] group, [1[0-2]|0[1-9]|[1-9]], in order: each
    successful alternative gives the value read and the rest of the text. *)
Definition month_alternatives (s : str) : list (Z * str) :=
  (match s with
   | a :: b :: r =>
       if Ascii.eqb a "1"%char && in_range 48 50 b
       then [((10 + digit_val b)%Z, r)] else []
   | _ => []
   end)
  ++ (match s with
      | a :: b :: r =>
          if Ascii.eqb a "0"%char && in_range 49 57 b then [(digit_val b, r)] else []
      | _ => []
      end)
  ++ (match s with
      | a :: r => if in_range 49 57 a then [(digit_val a, r)] else []
      | _ => []
      end).

(** The alternatives of the [%d] group,
    [3[0-1]|[1-2]\d|0[1-9]|[1-9]| [1-9]], in order. *)
Definition day_alternatives (s : str) : list (Z * str) :=
  (match s with
   | a :: b :: r =>
       if Ascii.eqb a "3"%char && in_range 48 49 b
       then [((30 + digit_val b)%Z, r)] else []
   | _ => []
   end)
  ++ (match s with
      | a :: b :: r =>
          if in_range 49 50 a && isdigit b
          then [((10 * digit_val a + digit_val b)%Z, r)] else []
      | _ => []
      end)
  ++ (match s with
      | a :: b :: r =>
          if Ascii.eqb a "0"%char && in_range 49 57 b then [(digit_val b, r)] else []
      | _ => []
      end)
  ++ (match s with
      | a :: r => if in_range 49 57 a then [(digit_val a, r)] else []
      | _ => []
      end)
  ++ (match s with
      | a :: b :: r =>
          if Ascii.eqb a " "%char && in_range 49 57 b then [(digit_val b, r)] else []
      | _ => []
      end).

(** After the month group: the literal [-], then the day group.  The first
    day alternative that matches ends the match. *)
Definition match_after_month (mr : Z * str) : option (Z * Z * str) :=
  match snd mr with
  | c :: r =>
      if Ascii.eqb c "-"%char
      then match day_alternatives r with
           | (d, rest) :: _ => Some (fst mr, d, rest)
           | [] => None
           end
      else None
  | [] => None
  end.

Fixpoint first_match (A B : Type) (f : A -> option B) (l : list A) : option B :=
  match l with
  | [] => None
  | x :: l' => match f x with
               | Some y => Some y
               | None => first_match f l'
               end
  end.

(** The compiled format [(\d\d\d\d)-(m)-(d)] matched at the start of the
    text, with backtracking over the month alternatives: year, month, day and
    the text left unconverted. *)
Definition match_ymd (s : str) : option (Z * Z * Z * str) :=
  match s with
  | y1 :: y2 :: y3 :: y4 :: dash :: r =>
      if isdigit y1 && isdigit y2 && isdigit y3 && isdigit y4
         && Ascii.eqb dash "-"%char
      then
        match first_match match_after_month (month_alternatives r) with
        | Some (m, d, rest) =>
            Some ((1000 * digit_val y1 + 100 * digit_val y2
                   + 10 * digit_val y3 + digit_val y4)%Z, m, d, rest)
        | None => None
        end
      else None
  | _ => None
  end.

(** [datetime.strptime(s, '%Y-%m-%d').date()]; [None] stands for
    [ValueError] (no match, unconverted data, or a day or year out of
    range). *)
Definition strptime_ymd (s : str) : option date :=
  match match_ymd s with
  | Some (y, m, d, rest) =>
      match rest with
      | [] => new_date y m d
      | _ :: _ => None
      end
  | None => None
  end.

(* ------------------------------------------------------------------ *)
(** ** validations.py *)

Module TaskValidator.

Definition msg_title_required : str := py "Task title is required.".
Definition msg_title_short : str :=
  py "Task title must be at least 3 characters long.".
Definition msg_title_long : str :=
  py "Task title cannot exceed 200 characters.".
Definition msg_title_chars : str :=
  py "Task title contains invalid characters.".
Definition msg_description_long : str :=
  py "Description cannot exceed 1000 characters.".
Definition msg_priority : str :=
  py "Invalid priority. Must be one of: Low, Medium, High.".
Definition msg_date_past : str := py "Due date cannot be in the past.".
Definition msg_date_far : str :=
  py "Due date is too far in the future (max 5 years).".
Definition msg_date_format : str :=
  py "Invalid date format. Please use YYYY-MM-DD format.".

(** The punctuation of the title check: . , ! ? - _ ( ) [ ] { } : ; and the
    double and single quotes. *)
Definition title_punctuation : str :=
  py ".,!?-_()[]{}:;" ++ [ascii_of_nat 34; ascii_of_nat 39].

Definition title_char_ok (c : ascii) : bool :=
  isalnum c || isspace c || existsb (Ascii.eqb c) title_punctuation.

Definition validate_title (title : option str) : bool * list str :=
  let errors : list str := [] in
  if negb (truthy title) then (false, errors ++ [msg_title_required])
  else
    let title := strip (str_of title) in
    let errors :=
      if length title <? 3 then errors ++ [msg_title_short] else errors in
    let errors :=
      if 200 <? length title then errors ++ [msg_title_long] else errors in
    let errors :=
      if negb (forallb title_char_ok title)
      then errors ++ [msg_title_chars] else errors in
    (length errors =? 0, errors).

Definition validate_description (description : option str)
  : bool * list str :=
  let errors : list str := [] in
  let errors :=
    if truthy description then
      let description := strip (str_of description) in
      if 1000 <? length description
      then errors ++ [msg_description_long] else errors
    else errors in
  (length errors =? 0, errors).

Definition priorities : list str := [py "Low"; py "Medium"; py "High"].

Definition validate_priority (priority : option str) : bool * list str :=
  let errors : list str := [] in
  let errors :=
    if truthy priority
       && negb (str_in (str_of priority) priorities)
    then errors ++ [msg_priority] else errors in
  (length errors =? 0, errors).

(** [today] is the value of [datetime.now().date()] when the function
    runs.  Both the parse and the construction of the upper bound sit inside
    the [try]; a [ValueError] from either reaches the one handler, with the
    errors appended so far kept. *)
Definition validate_due_date (today : date) (due_date : option str)
  : bool * list str :=
  let errors : list str := [] in
  let errors :=
    if truthy due_date then
      match strptime_ymd (str_of due_date) with
      | Some date_obj =>
          let errors :=
            if date_ltb date_obj today
            then errors ++ [msg_date_past] else errors in
          match new_date (year today + 5) (month today) (day today) with
          | Some max_future_date =>
              if date_ltb max_future_date date_obj
              then errors ++ [msg_date_far] else errors
          | None => errors ++ [msg_date_format]
          end
      | None => errors ++ [msg_date_format]
      end
    else errors in
  (length errors =? 0, errors).

Definition validate_task_data (today : date)
    (title description priority due_date : option str) : bool * list str :=
  let all_errors : list str := [] in
  let '(is_valid, errors) := validate_title title in
  let all_errors :=
    if negb is_valid then all_errors ++ errors else all_errors in
  let '(is_valid, errors) := validate_description description in
  let all_errors :=
    if negb is_valid then all_errors ++ errors else all_errors in
  let '(is_valid, errors) := validate_priority priority in
  let all_errors :=
    if negb is_valid then all_errors ++ errors else all_errors in
  let '(is_valid, errors) := validate_due_date today due_date in
  let all_errors :=
    if negb is_valid then all_errors ++ errors else all_errors in
  (length all_errors =? 0, all_errors).

End TaskValidator.

(** The substrings [sanitize_input] deletes, in the order of the calls. *)
Definition denylist : list str :=
  [py "<script>"; py "</script>"; py "javascript:"; py "onerror=";
   py "onclick="].

(** [sanitize_input] on an optional string. *)
Definition sanitize_input (value : option str) : option str :=
  match value with
  | None => None
  | Some value =>
      let value := strip value in
      if negb (truthy (Some value)) then None
      else
        let value := replace_empty (py "</script>")
                       (replace_empty (py "<script>") value) in
        let value := replace_empty (py "javascript:") value in
        let value := replace_empty (py "onerror=") value in
        let value := replace_empty (py "onclick=") value in
        Some value
  end.

(** [request.form]: the submitted fields in order; [get] takes the first
    value of a name. *)
Definition form_data := list (str * str).

Fixpoint form_get (form : form_data) (name : str) : option str :=
  match form with
  | [] => None
  | (k, v) :: rest => if str_eqb k name then Some v else form_get rest name
  end.

(** [request.form.get(name, default)] *)
Definition form_get_default (form : form_data) (name : str)
    (default : option str) : option str :=
  match form_get form name with
  | Some v => Some v
  | None => default
  end.

Definition get_safe_form_data (form : form_data) (field_name : str)
    (default : option str) : option str :=
  sanitize_input (form_get_default form field_name default).

(** The exceptions the handlers meet: [werkzeug.exceptions.NotFound] from
    [first_or_404], [ValueError] from [int] and [strptime], and the
    [IntegrityError] of a [NOT NULL] column. *)
Inductive exn := NotFound | ValueError | IntegrityError.

(** A flashed text: a literal, or an f-string ending in [str(e)] for a caught
    exception [e]. *)
Inductive message :=
| Text (s : str)
| Caught (prefix : str) (e : exn).

Definition flash := (message * str)%type.

(** [flash_errors]: one flashed message of category [error] per error. *)
Definition flash_errors (errors : list str) : list flash :=
  map (fun error => (Text error, py "error")) errors.

(* ------------------------------------------------------------------ *)
(** ** Python [int(s)] on a string *)

(** The characters [int] skips around the literal. *)
Definition int_space (c : ascii) : bool :=
  in_range 9 13 c || in_range 32 32 c || in_range 133 133 c
  || in_range 160 160 c.

Definition int_max_str_digits : nat := 4300.

(** Digits with single underscores between them: the value and the number
    of digits, [None] when the text is not of that shape. *)
Fixpoint scan_digits (acc : Z) (count : nat) (s : str) : option (Z * nat) :=
  match s with
  | [] => None
  | c :: r =>
      if isdigit c then
        let acc' := (10 * acc + digit_val c)%Z in
        match r with
        | [] => Some (acc', S count)
        | u :: r' =>
            if Ascii.eqb u "_"%char then scan_digits acc' (S count) r'
            else scan_digits acc' (S count) r
        end
      else None
  end.

Definition int_unsigned (s : str) : option Z :=
  match scan_digits 0 0 s with
  | Some (n, count) => if count <=? int_max_str_digits then Some n else None
  | None => None
  end.

(** [int(s)]; [None] stands for [ValueError]. *)
Definition py_int (s : str) : option Z :=
  match rev (drop_while int_space (rev (drop_while int_space s))) with
  | c :: r =>
      if Ascii.eqb c "+"%char then int_unsigned r
      else if Ascii.eqb c "-"%char then option_map Z.opp (int_unsigned r)
      else int_unsigned (c :: r)
  | [] => None
  end.

(* ------------------------------------------------------------------ *)
(** ** app.py: the tables *)

Module User.
Record row := mk {
  id : Z;
  username : str;
  email : str;
  password_hash : str;
  created_at : Z
}.
End User.

Module Task.
Record row := mk {
  id : Z;
  title : str;
  description : option str;
  priority : option str;
  due_date : option str;
  status : str;
  duration : Z;
  completed : bool;
  created_at : Z;
  user_id : Z
}.
End Task.

Record database := mkdb {
  users : list User.row;
  tasks : list Task.row
}.

(** The integer primary key given to a new row. *)
Definition next_id (ids : list Z) : Z := (1 + fold_right Z.max 0 ids)%Z.

(** [User.query.filter_by(username=username).first()] *)
Definition user_by_username (username : option str) (db : database)
  : option User.row :=
  match username with
  | Some name => find (fun u => str_eqb (User.username u) name) (users db)
  | None => None
  end.

(** [User.query.filter_by(email=email).first()] *)
Definition user_by_email (email : option str) (db : database)
  : option User.row :=
  match email with
  | Some e => find (fun u => str_eqb (User.email u) e) (users db)
  | None => None
  end.

(** [Task.query.filter_by(id=task_id, user_id=user_id).first()] *)
Definition task_by_id_and_owner (task_id user_id : Z) (db : database)
  : option Task.row :=
  find (fun t => (Task.id t =? task_id)%Z && (Task.user_id t =? user_id)%Z)
    (tasks db).

(** [Task.query.filter_by(user_id=user_id)] *)
Definition tasks_of (user_id : Z) (db : database) : list Task.row :=
  filter (fun t => (Task.user_id t =? user_id)%Z) (tasks db).

Fixpoint insert_desc (t : Task.row) (l : list Task.row) : list Task.row :=
  match l with
  | [] => [t]
  | u :: l' =>
      if (Task.created_at u <=? Task.created_at t)%Z then t :: u :: l'
      else u :: insert_desc t l'
  end.

(** [.order_by(Task.created_at.desc())]: rows of equal creation time keep
    their table order. *)
Definition order_by_created_at_desc (l : list Task.row) : list Task.row :=
  fold_right insert_desc [] l.

(** The row with the primary key of [t] rewritten to [t]. *)
Definition update_task (t : Task.row) (db : database) : database :=
  mkdb (users db)
    (map (fun r => if (Task.id r =? Task.id t)%Z then t else r) (tasks db)).

(** The row with the primary key of [t] deleted. *)
Definition delete_row (t : Task.row) (db : database) : database :=
  mkdb (users db)
    (filter (fun r => negb (Task.id r =? Task.id t)%Z) (tasks db)).

(* ------------------------------------------------------------------ *)
(** ** app.py: the request handlers *)

Inductive http_method := GET | POST.

Record session_data := mksession {
  session_user_id : option Z;
  session_username : option str
}.

(** A task as [index] hands it to the template: the row, its due date as a
    date, and [days_left]. *)
Record task_view := mkview {
  view_task : Task.row;
  view_due_date : option date;
  days_left : option Z
}.

Inductive response :=
| Redirect (endpoint : str)
| RenderRegister
| RenderIndex (tasks : list task_view)
| RenderEdit (task : Task.row)
| Unhandled (e : exn).

Record outcome := mkoutcome {
  db_after : database;
  flashed : list flash;
  resp : response
}.

(** The wall clock of a request: [datetime.now().date()] (also
    [datetime.today().date()]) and [datetime.utcnow()]. *)
Record clock := mkclock {
  today : date;
  utcnow : Z
}.

Definition login_required (f : Z -> database -> outcome)
    (session : session_data) (db : database) : outcome :=
  match session_user_id session with
  | None =>
      mkoutcome db [(Text (py "Please log in to access this page."), py "error")]
        (Redirect (py "login"))
  | Some user_id => f user_id db
  end.

Definition contains_char (c : ascii) (s : str) : bool := existsb (Ascii.eqb c) s.

Definition opt_str_eqb (a b : option str) : bool :=
  match a, b with
  | None, None => true
  | Some x, Some y => str_eqb x y
  | _, _ => false
  end.

Section Register.

(** [werkzeug.security.generate_password_hash] *)
Variable generate_password_hash : str -> str.

Definition register (now : clock) (session : session_data)
    (method : http_method) (form : form_data) (db : database) : outcome :=
  match session_user_id session with
  | Some _ => mkoutcome db [] (Redirect (py "index"))
  | None =>
      match method with
      | GET => mkoutcome db [] RenderRegister
      | POST =>
          let username := get_safe_form_data form (py "username") None in
          let email := get_safe_form_data form (py "email") None in
          let password := form_get form (py "password") in
          let confirm_password := form_get form (py "confirm_password") in
          let errors : list str := [] in
          let errors :=
            if negb (truthy username) || (length (str_of username) <? 3)
            then errors ++ [py "Username must be at least 3 characters long."]
            else errors in
          let errors :=
            if negb (truthy email)
               || negb (contains_char "@"%char (str_of email))
            then errors ++ [py "Please enter a valid email address."]
            else errors in
          let errors :=
            if negb (truthy password) || (length (str_of password) <? 6)
            then errors ++ [py "Password must be at least 6 characters long."]
            else errors in
          let errors :=
            if negb (opt_str_eqb password confirm_password)
            then errors ++ [py "Passwords do not match."] else errors in
          let errors :=
            match user_by_username username db with
            | Some _ => errors ++ [py "Username already exists."]
            | None => errors
            end in
          let errors :=
            match user_by_email email db with
            | Some _ => errors ++ [py "Email already registered."]
            | None => errors
            end in
          match errors with
          | _ :: _ => mkoutcome db (flash_errors errors) RenderRegister
          | [] =>
              match username, email, password with
              | Some username, Some email, Some password =>
                  let new_user :=
                    User.mk (next_id (map User.id (users db))) username email
                      (generate_password_hash password) (utcnow now) in
                  mkoutcome (mkdb (users db ++ [new_user]) (tasks db))
                    [(Text (py "Registration successful! Please log in."),
                      py "success")]
                    (Redirect (py "login"))
              | _, _, _ =>
                  mkoutcome db
                    [(Caught (py "Registration error: ") IntegrityError,
                      py "error")]
                    RenderRegister
              end
          end
      end
  end.

End Register.

Definition annotate_one (today : date) (t : Task.row) : option task_view :=
  if truthy (Task.due_date t) then
    match strptime_ymd (str_of (Task.due_date t)) with
    | Some d => Some (mkview t (Some d) (Some (days_between d today)))
    | None => None
    end
  else Some (mkview t None None).

(** The loop of [index]; [None] stands for the [ValueError] of a due date
    that does not parse. *)
Fixpoint annotate_all (today : date) (ts : list Task.row)
  : option (list task_view) :=
  match ts with
  | [] => Some []
  | t :: rest =>
      match annotate_one today t with
      | None => None
      | Some v =>
          match annotate_all today rest with
          | None => None
          | Some vs => Some (v :: vs)
          end
      end
  end.

Definition index (now : clock) : session_data -> database -> outcome :=
  login_required (fun user_id db =>
    let tasks := order_by_created_at_desc (tasks_of user_id db) in
    match annotate_all (today now) tasks with
    | Some views => mkoutcome db [] (RenderIndex views)
    | None => mkoutcome db [] (Unhandled ValueError)
    end).

(** [request.form.get(name) or default] *)
Definition form_get_or (form : form_data) (name default : str) : str :=
  if truthy (form_get form name) then str_of (form_get form name) else default.

(** [int(request.form.get("duration") or 0)] *)
Definition form_duration (form : form_data) : option Z :=
  if truthy (form_get form (py "duration"))
  then py_int (str_of (form_get form (py "duration")))
  else Some 0%Z.

(** The [except Exception] branch of a task handler: rollback, one flashed
    error, back to the list. *)
Definition caught_to_index (db : database) (prefix : str) (e : exn) : outcome :=
  mkoutcome db [(Caught prefix e, py "error")] (Redirect (py "index")).

Definition add_task (now : clock) (form : form_data)
  : session_data -> database -> outcome :=
  login_required (fun user_id db =>
    let title := get_safe_form_data form (py "title") None in
    let description := get_safe_form_data form (py "description") None in
    let priority :=
      get_safe_form_data form (py "priority") (Some (py "None")) in
    let due_date := get_safe_form_data form (py "due_date") None in
    let '(is_valid, errors) :=
      TaskValidator.validate_task_data (today now)
        title description priority due_date in
    if negb is_valid
    then mkoutcome db (flash_errors errors) (Redirect (py "index"))
    else
      match form_duration form with
      | None => caught_to_index db (py "Error adding task: ") ValueError
      | Some duration =>
          match title with
          | None => caught_to_index db (py "Error adding task: ") IntegrityError
          | Some title =>
              let new_task :=
                Task.mk (next_id (map Task.id (tasks db))) title
                  (if truthy description then description else None)
                  priority due_date
                  (form_get_or form (py "status") (py "Not Started"))
                  duration false (utcnow now) user_id in
              mkoutcome (mkdb (users db) (tasks db ++ [new_task]))
                [(Text (py "Task added successfully!"), py "success")]
                (Redirect (py "index"))
          end
      end).

Definition edit_task (now : clock) (method : http_method) (form : form_data)
    (task_id : Z) : session_data -> database -> outcome :=
  login_required (fun user_id db =>
    match task_by_id_and_owner task_id user_id db with
    | None => caught_to_index db (py "Error updating task: ") NotFound
    | Some task =>
        match method with
        | GET => mkoutcome db [] (RenderEdit task)
        | POST =>
            let title := get_safe_form_data form (py "title") None in
            let description :=
              get_safe_form_data form (py "description") None in
            let priority :=
              get_safe_form_data form (py "priority") (Some (py "None")) in
            let due_date := get_safe_form_data form (py "due_date") None in
            let '(is_valid, errors) :=
              TaskValidator.validate_task_data (today now)
                title description priority due_date in
            if negb is_valid
            then mkoutcome db (flash_errors errors) (RenderEdit task)
            else
              match form_duration form with
              | None =>
                  caught_to_index db (py "Error updating task: ") ValueError
              | Some duration =>
                  match title with
                  | None =>
                      caught_to_index db (py "Error updating task: ")
                        IntegrityError
                  | Some title =>
                      let task' :=
                        Task.mk (Task.id task) title description
                          (Some (if truthy priority then str_of priority
                                 else py "None"))
                          due_date
                          (form_get_or form (py "status") (py "Not Started"))
                          duration (Task.completed task)
                          (Task.created_at task) (Task.user_id task) in
                      mkoutcome (update_task task' db)
                        [(Text (py "Task updated successfully!"), py "success")]
                        (Redirect (py "index"))
                  end
              end
        end
    end).

Definition set_completed (b : bool) (t : Task.row) : Task.row :=
  Task.mk (Task.id t) (Task.title t) (Task.description t) (Task.priority t)
    (Task.due_date t) (Task.status t) (Task.duration t) b
    (Task.created_at t) (Task.user_id t).

Definition toggle_task (task_id : Z) : session_data -> database -> outcome :=
  login_required (fun user_id db =>
    match task_by_id_and_owner task_id user_id db with
    | None => caught_to_index db (py "Error toggling task: ") NotFound
    | Some task =>
        let task := set_completed (negb (Task.completed task)) task in
        let status :=
          if Task.completed task then py "completed" else py "reopened" in
        mkoutcome (update_task task db)
          [(Text (py "Task " ++ status ++ py " successfully!"), py "success")]
          (Redirect (py "index"))
    end).

Definition delete_task (task_id : Z) : session_data -> database -> outcome :=
  login_required (fun user_id db =>
    match task_by_id_and_owner task_id user_id db with
    | None => caught_to_index db (py "Error deleting task: ") NotFound
    | Some task =>
        mkoutcome (delete_row task db)
          [(Text (py "Task deleted successfully!"), py "success")]
          (Redirect (py "index"))
    end).

(* ------------------------------------------------------------------ *)
(** ** app.py: login and logout *)

(** What the two session handlers answer with. *)
Inductive auth_page :=
| AuthRedirect (endpoint : str)
| RenderLogin.

(** Neither handler writes to the store: the outcome is the session after
    the request, the flashed messages and the page. *)
Record auth_outcome := mkauth {
  session_after : session_data;
  auth_flashed : list flash;
  auth_page_of : auth_page
}.

Section Login.

(** [werkzeug.security.check_password_hash] on the stored hash and the
    submitted password, which is [None] when the field is missing; [inl]
    is an exception of the library. *)
Variable check_password_hash : str -> option str -> exn + bool.

Definition login (session : session_data) (method : http_method)
    (form : form_data) (db : database) : auth_outcome :=
  match session_user_id session with
  | Some _ => mkauth session [] (AuthRedirect (py "index"))
  | None =>
      match method with
      | GET => mkauth session [] RenderLogin
      | POST =>
          let username := get_safe_form_data form (py "username") None in
          let password := form_get form (py "password") in
          match user_by_username username db with
          | Some user =>
              match check_password_hash (User.password_hash user) password
              with
              | inr true =>
                  mkauth
                    (mksession (Some (User.id user))
                       (Some (User.username user)))
                    [(Text (py "Welcome back, " ++ User.username user
                            ++ py "!"), py "success")]
                    (AuthRedirect (py "index"))
              | inr false =>
                  mkauth session
                    [(Text (py "Invalid username or password."), py "error")]
                    RenderLogin
              | inl e =>
                  mkauth session [(Caught (py "Login error: ") e, py "error")]
                    RenderLogin
              end
          | None =>
              mkauth session
                [(Text (py "Invalid username or password."), py "error")]
                RenderLogin
          end
      end
  end.

End Login.

(** An optional string inside an f-string. *)
Definition format_opt (v : option str) : str :=
  match v with Some s => s | None => py "None" end.

Definition logout (session : session_data) : auth_outcome :=
  match session_user_id session with
  | None =>
      mkauth session
        [(Text (py "Please log in to access this page."), py "error")]
        (AuthRedirect (py "login"))
  | Some _ =>
      let username := session_username session in
      mkauth (mksession None None)
        [(Text (py "Goodbye, " ++ format_opt username ++ py "!"),
          py "success")]
        (AuthRedirect (py "login"))
  end.

(* ------------------------------------------------------------------ *)
(** ** What the specification says, as predicates *)

(** [t] is [s] without its leading and trailing whitespace. *)
Definition Trimmed (s t : str) : Prop :=
  exists l r,
    s = l ++ t ++ r
    /\ Forall (fun c => isspace c = true) l
    /\ Forall (fun c => isspace c = true) r
    /\ (forall c t', t = c :: t' -> isspace c = false)
    /\ (forall c t', t = t' ++ [c] -> isspace c = false).

(** [old] occurs in [s]. *)
Definition occurs (old s : str) : Prop := exists a b, s = a ++ old ++ b.

(** [r] is [s] with every occurrence of [old] met from left to right
    deleted, the text around the occurrences kept as it is. *)
Inductive Deleted (old : str) : str -> str -> Prop :=
| Deleted_none : forall s, ~ occurs old s -> Deleted old s s
| Deleted_first : forall a b r,
    (forall a' b', a ++ old ++ b = a' ++ old ++ b' -> length a <= length a') ->
    Deleted old b r ->
    Deleted old (a ++ old ++ b) (a ++ r).

(** Usernames and emails are each unique in the accounts table. *)
Definition unique_accounts (db : database) : Prop :=
  NoDup (map User.username (users db)) /\ NoDup (map User.email (users db)).

(** Every stored due date is a calendar date string. *)
Definition due_dates_parse (db : database) : Prop :=
  forall t, In t (tasks db) -> truthy (Task.due_date t) = true ->
    exists d, strptime_ymd (str_of (Task.due_date t)) = Some d.

(** No task of the store has the id [task_id] and the owner [user_id]. *)
Definition not_owned (task_id user_id : Z) (db : database) : Prop :=
  forall t, In t (tasks db) -> Task.id t = task_id -> Task.user_id t <> user_id.

(** The day after [d]. *)
Definition next_day (d : date) : date :=
  if (day d <? days_in_month (year d) (month d))%Z
  then mkdate (year d) (month d) (day d + 1)
  else if (month d <? 12)%Z then mkdate (year d) (month d + 1) 1
  else mkdate (year d + 1) 1 1.

(** Rows in the order of [index]: the more recently created first. *)
Definition newer_first (a b : Task.row) : Prop :=
  (Task.created_at b <= Task.created_at a)%Z.

(** What [index] attaches to one row. *)
Definition annotated (today : date) (v : task_view) : Prop :=
  if truthy (Task.due_date (view_task v))
  then exists d,
         strptime_ymd (str_of (Task.due_date (view_task v))) = Some d
         /\ view_due_date v = Some d
         /\ days_left v = Some (toordinal d - toordinal today)%Z
  else days_left v = None.

(** A validator result whose validity is the emptiness of its error list. *)
Definition flag_matches (r : bool * list str) : Prop :=
  fst r = (length (snd r) =? 0).


(** ** The application as a transition system *)

(** The requests that reach the store. *)
Inductive request :=
| Register (method : http_method) (form : form_data)
| Index
| AddTask (form : form_data)
| EditTask (method : http_method) (form : form_data) (task_id : Z)
| ToggleTask (task_id : Z)
| DeleteTask (task_id : Z).

Definition handle (generate_password_hash : str -> str) (now : clock)
    (session : session_data) (r : request) (db : database) : outcome :=
  match r with
  | Register method form =>
      register generate_password_hash now session method form db
  | Index => index now session db
  | AddTask form => add_task now form session db
  | EditTask method form task_id =>
      edit_task now method form task_id session db
  | ToggleTask task_id => toggle_task task_id session db
  | DeleteTask task_id => delete_task task_id session db
  end.

(** The stores the application gets to from the empty tables of
    [db.create_all()], one request at a time, with any clock and session. *)
Inductive reachable (generate_password_hash : str -> str)
  : database -> Prop :=
| reachable_empty : reachable generate_password_hash (mkdb [] [])
| reachable_step : forall db now session r,
    reachable generate_password_hash db ->
    reachable generate_password_hash
      (db_after (handle generate_password_hash now session r db)).

(** The store after Carol registers and adds a task. *)
Definition example_store : database :=
  db_after
    (handle (fun p => py "h:" ++ p) (mkclock (mkdate 2026 11 3) 20)
       (mksession (Some 1%Z) (Some (py "carol")))
       (AddTask [(py "title", py "Buy milk"); (py "priority", py "Low");
                 (py "due_date", py "2026-11-10")])
       (db_after
          (handle (fun p => py "h:" ++ p) (mkclock (mkdate 2026 11 3) 10)
             (mksession None None)
             (Register POST
                [(py "username", py "carol");
                 (py "email", py "carol@example.org");
                 (py "password", py "secret1");
                 (py "confirm_password", py "secret1")])
             (mkdb [] [])))).

(** ** Further predicates *)

(** [a] is [b] with some characters left out, the others in order. *)
Inductive Subseq : str -> str -> Prop :=
| Subseq_nil : Subseq [] []
| Subseq_keep : forall c a b, Subseq a b -> Subseq (c :: a) (c :: b)
| Subseq_drop : forall c a b, Subseq a b -> Subseq a (c :: b).

(** The character of a decimal digit. *)
Definition digit_char (n : Z) : ascii := ascii_of_N (Z.to_N (48 + n)).

(** A date written as YYYY-MM-DD, zero-padded. *)
Definition isoformat (d : date) : str :=
  [digit_char (year d / 1000); digit_char (year d / 100 mod 10);
   digit_char (year d / 10 mod 10); digit_char (year d mod 10); "-"%char;
   digit_char (month d / 10); digit_char (month d mod 10); "-"%char;
   digit_char (day d / 10); digit_char (day d mod 10)].

(** Primary keys are unique in both tables. *)
Definition unique_ids (db : database) : Prop :=
  NoDup (map User.id (users db)) /\ NoDup (map Task.id (tasks db)).

(** Every stored task passes the title and description rules. *)
Definition fields_valid (db : database) : Prop :=
  forall t, In t (tasks db) ->
    fst (TaskValidator.validate_title (Some (Task.title t))) = true
    /\ fst (TaskValidator.validate_description (Task.description t)) = true.

(** A list ending in an element takes the non-empty branch of a match. *)
Ltac snoc_branch :=
  match goal with
  | |- context [match ?l ++ [?x] with [] => _ | _ :: _ => _ end] =>
      let E := fresh "E" in
      destruct (l ++ [x]) eqn:E;
      [apply app_eq_nil in E as (_ & E); discriminate | rewrite <- ?E]
  end.

Import TaskValidator.

(* ------------------------------------------------------------------ *)
(** ** Strings: equality, prefixes, trimming *)

Lemma str_eqb_spec (a b : str) : str_eqb a b = true <-> a = b.
Proof.
  revert b; induction a as [|x a IH]; intros [|y b]; simpl;
    try (split; congruence).
  rewrite andb_true_iff, Ascii.eqb_eq, IH. split.
  - intros [-> ->]; reflexivity.
  - intros H; injection H; auto.
Qed.

Lemma str_eqb_refl (a : str) : str_eqb a a = true.
Proof. apply str_eqb_spec; reflexivity. Qed.

Lemma str_in_spec (x : str) (xs : list str) : str_in x xs = true <-> In x xs.
Proof.
  unfold str_in. rewrite existsb_exists. split.
  - intros (y & Hy & E). apply str_eqb_spec in E. subst; assumption.
  - intros H. exists x. split; [assumption | apply str_eqb_refl].
Qed.

Lemma starts_with_spec (p s : str) :
  starts_with p s = true <-> exists b, s = p ++ b.
Proof.
  revert s; induction p as [|x p IH]; intros s; simpl.
  - split; [intros _; exists s; reflexivity | reflexivity].
  - destruct s as [|y s].
    + split; [discriminate | intros (b & E); discriminate].
    + rewrite andb_true_iff, Ascii.eqb_eq, IH. split.
      * intros (-> & b & ->). exists b; reflexivity.
      * intros (b & E). injection E as -> ->. split; [reflexivity | eauto].
Qed.

Lemma drop_while_split (f : ascii -> bool) (s : str) :
  exists l, s = l ++ drop_while f s /\ Forall (fun c => f c = true) l.
Proof.
  induction s as [|c s (l & E & Hl)]; simpl.
  - exists []; split; [reflexivity | constructor].
  - destruct (f c) eqn:Hc.
    + exists (c :: l). split; [simpl; congruence | constructor; assumption].
    + exists []; split; [reflexivity | constructor].
Qed.

Lemma drop_while_head (f : ascii -> bool) (s : str) (c : ascii) (t : str) :
  drop_while f s = c :: t -> f c = false.
Proof.
  induction s as [|x s IH]; simpl; [discriminate|].
  destruct (f x) eqn:Hx; [assumption|].
  intros E; injection E as -> _; assumption.
Qed.

Lemma drop_while_all (f : ascii -> bool) (s : str) :
  drop_while f s = [] <-> Forall (fun c => f c = true) s.
Proof.
  induction s as [|x s IH]; simpl.
  - split; [constructor | reflexivity].
  - destruct (f x) eqn:Hx.
    + rewrite IH. split; [constructor; assumption | inversion 1; assumption].
    + split; [discriminate | inversion 1; congruence].
Qed.

Lemma strip_trimmed (s : str) : Trimmed s (strip s).
Proof.
  unfold Trimmed, strip, rstrip, lstrip.
  destruct (drop_while_split isspace s) as (l & El & Hl).
  destruct (drop_while_split isspace (rev (drop_while isspace s)))
    as (r & Er & Hr).
  set (m := drop_while isspace s) in *.
  set (t := drop_while isspace (rev m)) in *.
  assert (Em : m = rev t ++ rev r).
  { rewrite <- rev_app_distr, <- Er, rev_involutive; reflexivity. }
  exists l, (rev r). repeat split.
  - rewrite <- Em; exact El.
  - exact Hl.
  - apply Forall_rev; exact Hr.
  - intros c t' E.
    apply (@drop_while_head isspace s c (t' ++ rev r)).
    fold m. rewrite Em, E; reflexivity.
  - intros c t' E.
    apply (@drop_while_head isspace (rev m) c (rev t')).
    fold t. rewrite <- (rev_involutive t), E, rev_app_distr; reflexivity.
Qed.

Lemma strip_empty_iff (s : str) :
  strip s = [] <-> Forall (fun c => isspace c = true) s.
Proof.
  unfold strip, rstrip, lstrip. split.
  - intros E.
    assert (E' : drop_while isspace (rev (drop_while isspace s)) = []).
    { rewrite <- (rev_involutive (drop_while _ (rev _))), E; reflexivity. }
    apply drop_while_all in E'.
    destruct (drop_while_split isspace s) as (l & El & Hl).
    rewrite El. apply Forall_app. split; [assumption|].
    rewrite <- (rev_involutive (drop_while isspace s)).
    apply Forall_rev; assumption.
  - intros H. apply drop_while_all in H. rewrite H. reflexivity.
Qed.

Lemma strip_chars (s : str) (P : ascii -> Prop) :
  Forall P s -> Forall P (strip s).
Proof.
  intros H. destruct (strip_trimmed s) as (l & r & E & _).
  rewrite E in H. apply Forall_app in H as (_ & H).
  apply Forall_app in H as (H & _). exact H.
Qed.

(* ------------------------------------------------------------------ *)
(** ** Strings: deleting the occurrences of a substring *)

Lemma delete_scan_skip (old : str) (k : nat) (s : str) :
  delete_scan old k s = delete_scan old 0 (skipn k s).
Proof.
  revert k; induction s as [|c s IH]; intros [|k]; try reflexivity.
  simpl delete_scan at 1. rewrite IH. reflexivity.
Qed.

Lemma starts_with_app (p b : str) : starts_with p (p ++ b) = true.
Proof. apply starts_with_spec. exists b; reflexivity. Qed.

Lemma skipn_app_exact (p b : str) : skipn (length p) (p ++ b) = b.
Proof. induction p; simpl; auto. Qed.

Lemma replace_empty_nil (old : str) : replace_empty old [] = [].
Proof. destruct old; reflexivity. Qed.

Lemma replace_empty_match (old b : str) :
  old <> [] -> replace_empty old (old ++ b) = replace_empty old b.
Proof.
  destruct old as [|x p]; [congruence|]. intros _.
  unfold replace_empty.
  change ((x :: p) ++ b) with (x :: (p ++ b)).
  cbn [delete_scan].
  change (x :: p ++ b) with ((x :: p) ++ b).
  rewrite starts_with_app. cbn [length pred].
  rewrite delete_scan_skip, skipn_app_exact. reflexivity.
Qed.

Lemma replace_empty_step (old : str) (c : ascii) (s : str) :
  old <> [] -> starts_with old (c :: s) = false ->
  replace_empty old (c :: s) = c :: replace_empty old s.
Proof.
  destruct old as [|x p]; [congruence|]. intros _ H.
  unfold replace_empty. cbn [delete_scan]. rewrite H. reflexivity.
Qed.

Lemma occurs_nil (old : str) : old <> [] -> ~ occurs old [].
Proof.
  intros Hold (a & b & E). symmetry in E.
  apply app_eq_nil in E as (_ & E). apply app_eq_nil in E as (E & _).
  contradiction.
Qed.

Lemma occurs_length (old s : str) : occurs old s -> length old <= length s.
Proof. intros (a & b & ->). rewrite !length_app. lia. Qed.

Lemma occurs_cons (old : str) (c : ascii) (s : str) :
  occurs old (c :: s) <-> starts_with old (c :: s) = true \/ occurs old s.
Proof.
  split.
  - intros ([|x a] & b & E).
    + left. apply starts_with_spec. exists b; exact E.
    + right. injection E as _ E. exists a, b; exact E.
  - intros [H | (a & b & E)].
    + apply starts_with_spec in H as (b & E). exists [], b; exact E.
    + exists (c :: a), b. simpl; congruence.
Qed.

Lemma replace_empty_no_occurrence (old s : str) :
  old <> [] -> ~ occurs old s -> replace_empty old s = s.
Proof.
  intros Hold. induction s as [|c s IH]; intros H.
  - apply replace_empty_nil.
  - rewrite occurs_cons in H.
    rewrite replace_empty_step, IH; auto.
    destruct (starts_with old (c :: s)); [exfalso|]; auto.
Qed.

Lemma replace_empty_leftmost (old a b : str) :
  old <> [] ->
  (forall a' b', a ++ old ++ b = a' ++ old ++ b' -> length a <= length a') ->
  replace_empty old (a ++ old ++ b) = a ++ replace_empty old b.
Proof.
  intros Hold. induction a as [|c a IH]; intros Hleft.
  - rewrite !app_nil_l. apply replace_empty_match; assumption.
  - rewrite <- !app_comm_cons. rewrite replace_empty_step, IH; auto.
    + intros a' b' E.
      specialize (Hleft (c :: a') b'). simpl in Hleft.
      rewrite E in Hleft. specialize (Hleft eq_refl). lia.
    + destruct (starts_with old (c :: a ++ old ++ b)) eqn:Hs; [|reflexivity].
      apply starts_with_spec in Hs as (b' & E).
      specialize (Hleft [] b' E). simpl in Hleft. lia.
Qed.

Lemma Deleted_cons (old : str) (c : ascii) (s r : str) :
  Deleted old s r -> starts_with old (c :: s) = false ->
  Deleted old (c :: s) (c :: r).
Proof.
  intros H Hs. destruct H as [s Hno | a b r Hleft Hd].
  - apply Deleted_none. rewrite occurs_cons. intros [H | H]; congruence.
  - apply (@Deleted_first old (c :: a) b r); [|assumption].
    intros [|c' a'] b' E.
    + simpl in E. exfalso.
      assert (starts_with old (c :: a ++ old ++ b) = true)
        by (apply starts_with_spec; exists b'; exact E).
      congruence.
    + injection E as _ E. apply Hleft in E. simpl; lia.
Qed.

Lemma replace_empty_Deleted (old s : str) :
  old <> [] -> Deleted old s (replace_empty old s).
Proof.
  intros Hold.
  remember (length s) as n eqn:Hn. revert s Hn.
  induction n as [n IH] using lt_wf_ind. intros [|c s] Hn.
  - rewrite replace_empty_nil. apply Deleted_none, occurs_nil; assumption.
  - destruct (starts_with old (c :: s)) eqn:Hs.
    + apply starts_with_spec in Hs as (b & E). rewrite E.
      rewrite replace_empty_match by assumption.
      apply (@Deleted_first old [] b (replace_empty old b)).
      * intros; simpl; lia.
      * apply (IH (length b)); [|reflexivity].
        rewrite Hn, E, length_app.
        destruct old; [congruence | simpl; lia].
    + rewrite replace_empty_step by assumption.
      apply Deleted_cons; [|assumption].
      apply (IH (length s)); [subst; simpl; lia | reflexivity].
Qed.

(** [replace_empty] is the one function satisfying [Deleted]. *)
Lemma Deleted_iff_replace_empty (old s r : str) :
  old <> [] -> (Deleted old s r <-> r = replace_empty old s).
Proof.
  intros Hold. split.
  - induction 1 as [s Hno | a b r Hleft Hd IH].
    + symmetry; apply replace_empty_no_occurrence; assumption.
    + rewrite replace_empty_leftmost by assumption. congruence.
  - intros ->. apply replace_empty_Deleted; assumption.
Qed.

(* ------------------------------------------------------------------ *)
(** ** The field validators *)

Lemma validate_title_flag title : flag_matches (validate_title title).
Proof.
  unfold flag_matches, validate_title.
  destruct (truthy title); reflexivity.
Qed.

Lemma validate_description_flag description :
  flag_matches (validate_description description).
Proof. reflexivity. Qed.

Lemma validate_priority_flag priority :
  flag_matches (validate_priority priority).
Proof. reflexivity. Qed.

Lemma validate_due_date_flag today due_date :
  flag_matches (validate_due_date today due_date).
Proof. reflexivity. Qed.

Lemma extend_when_invalid (acc : list str) (r : bool * list str) :
  flag_matches r ->
  (if negb (fst r) then acc ++ snd r else acc) = acc ++ snd r.
Proof.
  unfold flag_matches. destruct r as [b [|e es]]; simpl; intros ->; simpl.
  - symmetry; apply app_nil_r.
  - reflexivity.
Qed.

Lemma no_errors_app (a b : list str) :
  (length (a ++ b) =? 0) = (length a =? 0) && (length b =? 0).
Proof. destruct a; reflexivity. Qed.

Lemma validate_task_data_eq :
  forall (today : date) (title description priority due_date : option str),
    validate_task_data today title description priority due_date
    = (fst (validate_title title) && fst (validate_description description)
       && fst (validate_priority priority)
       && fst (validate_due_date today due_date),
       snd (validate_title title) ++ snd (validate_description description)
       ++ snd (validate_priority priority)
       ++ snd (validate_due_date today due_date)).
Proof.
  intros today title description priority due_date.
  pose proof (validate_title_flag title) as Ht.
  pose proof (validate_description_flag description) as Hd.
  pose proof (validate_priority_flag priority) as Hp.
  pose proof (validate_due_date_flag today due_date) as Hdd.
  unfold validate_task_data.
  destruct (validate_title title) as [bt et].
  destruct (validate_description description) as [bd ed].
  destruct (validate_priority priority) as [bp ep].
  destruct (validate_due_date today due_date) as [bdd edd].
  pose proof (extend_when_invalid [] Ht) as E1.
  pose proof (extend_when_invalid et Hd) as E2.
  pose proof (extend_when_invalid (et ++ ed) Hp) as E3.
  pose proof (extend_when_invalid ((et ++ ed) ++ ep) Hdd) as E4.
  unfold flag_matches in *. simpl fst in *; simpl snd in *.
  rewrite E1. rewrite app_nil_l. rewrite E2, E3, E4.
  rewrite !no_errors_app, <- !app_assoc.
  subst bt bd bp bdd. reflexivity.
Qed.

(** C1. [validate_task_data] runs the four field validators whatever the
    earlier ones returned: its error list is the title errors, then the
    description errors, then the priority errors, then the due-date errors,
    and it is valid exactly when the four validators are (their
    conjunction). *)
Theorem validate_task_data_collects_all :
  forall (today : date) (title description priority due_date : option str),
    validate_task_data today title description priority due_date
    = (fst (validate_title title) && fst (validate_description description)
       && fst (validate_priority priority)
       && fst (validate_due_date today due_date),
       snd (validate_title title) ++ snd (validate_description description)
       ++ snd (validate_priority priority)
       ++ snd (validate_due_date today due_date)).
Proof. exact validate_task_data_eq. Qed.

(** An invalid title together with an invalid priority: both errors come
    back in one list. *)
Example validate_task_data_two_errors :
  validate_task_data (mkdate 2026 11 3)
    (Some (py "ab")) None (Some (py "Urgent")) None
  = (false, [msg_title_short; msg_priority]).
Proof. reflexivity. Qed.

Lemma title_punctuation_chars :
  title_punctuation =
  ["."; ","; "!"; "?"; "-"; "_"; "("; ")"; "["; "]"; "{"; "}"; ":"; ";";
   ascii_of_nat 34; "'"]%char.
Proof. reflexivity. Qed.

Lemma title_char_ok_spec (c : ascii) :
  title_char_ok c = true
  <-> isalnum c = true \/ isspace c = true \/ In c title_punctuation.
Proof.
  unfold title_char_ok. rewrite !orb_true_iff, existsb_exists.
  split.
  - intros [[H | H] | (x & Hx & E)]; auto.
    apply Ascii.eqb_eq in E; subst; auto.
  - intros [H | [H | H]]; auto.
    right. exists c. split; [assumption | apply Ascii.eqb_refl].
Qed.

Lemma validate_title_present (c : ascii) (t : str) :
  validate_title (Some (c :: t))
  = (let s := strip (c :: t) in
     let errors :=
       (if length s <? 3 then [msg_title_short] else [])
       ++ (if 200 <? length s then [msg_title_long] else [])
       ++ (if forallb title_char_ok s then [] else [msg_title_chars]) in
     (length errors =? 0, errors)).
Proof.
  unfold validate_title. cbn [truthy negb str_of].
  cbv zeta.
  destruct (length (strip (c :: t)) <? 3);
    destruct (200 <? length (strip (c :: t)));
    destruct (forallb title_char_ok (strip (c :: t))); reflexivity.
Qed.

(** C3. An absent or empty title is rejected as required.  A non-empty title
    is valid exactly when its trimmed length is between 3 and 200 and each of
    its characters is alphanumeric, whitespace or one of the sixteen
    punctuation marks; the too-short, too-long and invalid-character checks
    are independent, each appends its own message, and two of them can fire
    on one title. *)
Theorem validate_title_spec :
  validate_title None = (false, [msg_title_required])
  /\ validate_title (Some []) = (false, [msg_title_required])
  /\ (forall t : str, t <> [] ->
        let s := strip t in
        (fst (validate_title (Some t)) = true
         <-> 3 <= length s <= 200
             /\ Forall (fun c => isalnum c = true \/ isspace c = true
                                 \/ In c title_punctuation) s)
        /\ snd (validate_title (Some t))
           = (if length s <? 3 then [msg_title_short] else [])
             ++ (if 200 <? length s then [msg_title_long] else [])
             ++ (if forallb title_char_ok s then [] else [msg_title_chars]))
  /\ NoDup [msg_title_required; msg_title_short; msg_title_long;
            msg_title_chars]
  /\ validate_title (Some (py "a@"))
     = (false, [msg_title_short; msg_title_chars])
  /\ validate_title (Some (repeat "@"%char 201))
     = (false, [msg_title_long; msg_title_chars]).
Proof.
  split; [reflexivity|]. split; [reflexivity|].
  split; [|split; [|split; vm_compute; reflexivity]].
  - intros [|c t] Ht; [congruence|]. clear Ht. intros s.
    rewrite validate_title_present. fold s. cbv zeta. simpl fst; simpl snd.
    split; [|reflexivity].
    assert (Hall : forallb title_char_ok s = true
                   <-> Forall (fun c => isalnum c = true \/ isspace c = true
                                        \/ In c title_punctuation) s).
    { rewrite forallb_forall, Forall_forall.
      split; intros H x Hx; apply title_char_ok_spec; auto. }
    destruct (Nat.ltb_spec (length s) 3);
      destruct (Nat.ltb_spec 200 (length s));
      destruct (forallb title_char_ok s); simpl; split; intros Hv;
      try discriminate; try lia; try reflexivity;
      try (split; [lia | apply Hall; reflexivity]);
      destruct Hv as (Hlen & Hc); try lia; apply Hall in Hc; discriminate.
  - repeat constructor; simpl; intuition discriminate.
Qed.

Lemma validate_title_spec_witness :
  fst (validate_title (Some (py "Buy milk, eggs (2)!"))) = true
  <-> 3 <= length (strip (py "Buy milk, eggs (2)!")) <= 200
      /\ Forall (fun c => isalnum c = true \/ isspace c = true
                          \/ In c title_punctuation)
           (strip (py "Buy milk, eggs (2)!")).
Proof.
  destruct validate_title_spec as (_ & _ & H & _).
  apply (H (py "Buy milk, eggs (2)!")). discriminate.
Defined.

(** C5, as the claim states it, fails at the empty string: it is none of
    the three priorities and [validate_priority] accepts it. *)
Lemma validate_priority_empty_counterexample :
  ~ (forall p : str,
       fst (validate_priority (Some p)) = true <-> In p priorities).
Proof.
  intros H. destruct (H []) as [H1 _]. specialize (H1 eq_refl).
  simpl in H1. intuition discriminate.
Qed.

(** C5, amended. An absent or empty priority is valid (the field is
    optional); a non-empty priority is valid exactly when it is one of
    Low, Medium, High, compared case-sensitively, and otherwise gets the
    invalid-priority error. *)
Theorem validate_priority_spec :
  validate_priority None = (true, [])
  /\ validate_priority (Some []) = (true, [])
  /\ (forall p : str, p <> [] ->
        (fst (validate_priority (Some p)) = true
         <-> p = py "Low" \/ p = py "Medium" \/ p = py "High")
        /\ (fst (validate_priority (Some p)) = false
            -> validate_priority (Some p) = (false, [msg_priority])))
  /\ validate_priority (Some (py "low")) = (false, [msg_priority])
  /\ validate_priority (Some (py "HIGH")) = (false, [msg_priority])
  /\ validate_priority (Some (py "None")) = (false, [msg_priority]).
Proof.
  split; [reflexivity|]. split; [reflexivity|].
  split; [|repeat split; reflexivity].
  intros [|c p] Hp; [congruence|]. clear Hp.
  unfold validate_priority. cbn [truthy andb str_of].
  destruct (str_in (c :: p) priorities) eqn:Hin; simpl.
  - apply str_in_spec in Hin. simpl in Hin. split; [|discriminate].
    split; [intros _|reflexivity].
    destruct Hin as [H | [H | [H | []]]]; rewrite <- H; auto.
  - split; [|reflexivity]. split; [discriminate|]. intros H.
    assert (str_in (c :: p) priorities = true); [|congruence].
    apply str_in_spec. simpl. destruct H as [-> | [-> | ->]]; auto.
Qed.

Lemma validate_priority_spec_witness :
  fst (validate_priority (Some (py "Medium"))) = true
  <-> py "Medium" = py "Low" \/ py "Medium" = py "Medium"
      \/ py "Medium" = py "High".
Proof.
  destruct validate_priority_spec as (_ & _ & H & _).
  apply (H (py "Medium")). discriminate.
Defined.

(* ------------------------------------------------------------------ *)
(** ** The due date *)

Lemma date_messages_distinct :
  NoDup [msg_date_past; msg_date_far; msg_date_format].
Proof. repeat constructor; simpl; intuition discriminate. Qed.

(** On a day whose fifth anniversary exists, [validate_due_date] does what
    the specification says: a format error exactly for the strings that do
    not parse, and for a parsed date validity exactly between today and
    today plus five years. *)
Lemma validate_due_date_regular_day :
  forall (today max_future : date) (s : str),
    new_date (year today + 5) (month today) (day today) = Some max_future ->
    s <> [] ->
    (In msg_date_format (snd (validate_due_date today (Some s)))
     <-> strptime_ymd s = None)
    /\ (forall d, strptime_ymd s = Some d ->
          (fst (validate_due_date today (Some s)) = true
           <-> date_ltb d today = false /\ date_ltb max_future d = false)).
Proof.
  intros today max_future [|c s] Hmax Hs; [congruence|]. clear Hs.
  unfold validate_due_date. cbn [truthy str_of]. rewrite Hmax.
  destruct (strptime_ymd (c :: s)) as [d|]; simpl.
  - split.
    + split; [|discriminate].
      destruct (date_ltb d today); destruct (date_ltb max_future d); simpl;
        intuition discriminate.
    + intros d' E. injection E as <-.
      destruct (date_ltb d today); destruct (date_ltb max_future d); simpl;
        intuition discriminate.
  - split; [|discriminate]. split; auto.
Qed.

Lemma no_fifth_anniversary_of_leap_day (y : Z) :
  is_leap y = true -> new_date (y + 5) 2 29 = None.
Proof.
  unfold is_leap, new_date, valid_ymd, days_in_month, is_leap.
  rewrite andb_true_iff, Z.eqb_eq. intros (H4 & _).
  assert (E : ((y + 5) mod 4 =? 0)%Z = false) by (apply Z.eqb_neq; Z.div_mod_to_equations; lia).
  rewrite E. simpl. rewrite !andb_false_r. reflexivity.
Qed.

(** On 29 February every present due date is rejected, whatever it is. *)
Lemma validate_due_date_leap_day_rejects :
  forall (y : Z) (s : str),
    is_leap y = true -> s <> [] ->
    fst (validate_due_date (mkdate y 2 29) (Some s)) = false
    /\ In msg_date_format (snd (validate_due_date (mkdate y 2 29) (Some s))).
Proof.
  intros y [|c s] Hy Hs; [congruence|]. clear Hs.
  unfold validate_due_date. cbn [truthy str_of year month day].
  rewrite (no_fifth_anniversary_of_leap_day y Hy).
  destruct (strptime_ymd (c :: s)) as [d|]; simpl.
  - destruct (date_ltb d (mkdate y 2 29)); simpl; auto.
  - auto.
Qed.

(** The examples of the specification, on 3 November 2026: tomorrow is
    valid, yesterday is not, a date more than five years ahead is not, and a
    malformed string gets the format error. *)
Example validate_due_date_examples :
  let today := mkdate 2026 11 3 in
  validate_due_date today (Some (py "2026-11-04")) = (true, [])
  /\ validate_due_date today (Some (py "2026-11-03")) = (true, [])
  /\ validate_due_date today (Some (py "2026-11-02")) = (false, [msg_date_past])
  /\ validate_due_date today (Some (py "2031-11-03")) = (true, [])
  /\ validate_due_date today (Some (py "2099-01-01")) = (false, [msg_date_far])
  /\ validate_due_date today (Some (py "not-a-date"))
     = (false, [msg_date_format])
  /\ validate_due_date today None = (true, []).
Proof. repeat split; reflexivity. Qed.

(** C4 at its failing input. On 29 February 2024 the due date 2024-03-01
    parses, is not before today and is well within five years of today, and
    [validate_due_date] still returns invalid, with the format error: the
    upper bound date(2029, 2, 29) does not exist and its [ValueError] lands
    in the handler meant for the parse. *)
Theorem validate_due_date_leap_day_format_error :
  let today := mkdate 2024 2 29 in
  let due := mkdate 2024 3 1 in
  valid_date today
  /\ strptime_ymd (py "2024-03-01") = Some due
  /\ date_ltb due today = false
  /\ days_between due today = 1%Z
  /\ new_date (year today + 5) (month today) (day today) = None
  /\ validate_due_date today (Some (py "2024-03-01"))
     = (false, [msg_date_format]).
Proof. repeat split; reflexivity. Qed.

(* ------------------------------------------------------------------ *)
(** ** The sanitizer *)

Lemma py_nonempty (c : ascii) (s : string) : py (String c s) <> [].
Proof. discriminate. Qed.

(** C7. [sanitize_input] maps [None] to [None].  On a string it trims the
    whitespace at both ends; it returns [None] exactly when nothing is left,
    that is when the string is all whitespace; otherwise it returns the
    trimmed text with the occurrences of <script>, </script>, javascript:,
    onerror= and onclick= deleted, in that order, one left-to-right pass
    each, the text around them kept.  It is a total function of its
    argument. *)
Theorem sanitize_input_spec :
  sanitize_input None = None
  /\ (forall s : str,
        Trimmed s (strip s)
        /\ (sanitize_input (Some s) = None
            <-> Forall (fun c => isspace c = true) s)
        /\ (forall r : str,
              sanitize_input (Some s) = Some r
              <-> strip s <> []
                  /\ exists r1 r2 r3 r4,
                       Deleted (py "<script>") (strip s) r1
                       /\ Deleted (py "</script>") r1 r2
                       /\ Deleted (py "javascript:") r2 r3
                       /\ Deleted (py "onerror=") r3 r4
                       /\ Deleted (py "onclick=") r4 r))
  /\ sanitize_input (Some (py "  <script>alert(1)</script>  "))
     = Some (py "alert(1)")
  /\ sanitize_input (Some (py "")) = None
  /\ sanitize_input (Some (py "   ")) = None.
Proof.
  split; [reflexivity|]. split; [|repeat split; reflexivity].
  intros s. split; [apply strip_trimmed|].
  rewrite <- strip_empty_iff.
  unfold sanitize_input. cbv zeta.
  destruct (strip s) as [|c t]; cbn [truthy negb].
  - split; [split; reflexivity|].
    intros r. split; [discriminate | intros (H & _); congruence].
  - split; [split; discriminate|].
    intros r. split.
    + intros E. injection E as <-. split; [discriminate|].
      do 4 eexists. repeat split; apply replace_empty_Deleted, py_nonempty.
    + intros (_ & r1 & r2 & r3 & r4 & H1 & H2 & H3 & H4 & H5).
      apply Deleted_iff_replace_empty in H1, H2, H3, H4, H5;
        try apply py_nonempty.
      subst. reflexivity.
Qed.

Lemma sanitize_input_spec_witness :
  sanitize_input (Some (py " a<script>b ")) = Some (py "ab").
Proof.
  destruct sanitize_input_spec as (_ & H & _).
  destruct (H (py " a<script>b ")) as (_ & _ & Hr).
  apply Hr. split; [discriminate|].
  exists (py "ab"), (py "ab"), (py "ab"), (py "ab").
  assert (Hshort : forall old, 2 < length old -> Deleted old (py "ab") (py "ab")).
  { intros old Hlen. apply Deleted_none. intros Ho.
    apply occurs_length in Ho. simpl in Ho. lia. }
  repeat split; try (apply Hshort; simpl; lia).
  change (strip (py " a<script>b ")) with (py "a" ++ py "<script>" ++ py "b").
  change (py "ab") with (py "a" ++ py "b").
  apply Deleted_first.
  - intros [|x [|y a']] b' E; simpl; try lia; discriminate E.
  - apply Deleted_none. intros Ho. apply occurs_length in Ho. simpl in Ho. lia.
Defined.

(** C10. [sanitize_input] is not idempotent: on <scr<script>ipt> it
    returns <script>, which is on the denylist, and sanitizing that result
    again gives something else. *)
Theorem sanitize_input_not_idempotent :
  exists x y : str,
    sanitize_input (Some x) = Some y
    /\ (exists p, In p denylist /\ occurs p y)
    /\ sanitize_input (sanitize_input (Some x)) <> sanitize_input (Some x).
Proof.
  exists (py "<scr<script>ipt>"), (py "<script>").
  split; [reflexivity|]. split.
  - exists (py "<script>"). split; [left; reflexivity|].
    exists [], []. reflexivity.
  - vm_compute. discriminate.
Qed.

(* ------------------------------------------------------------------ *)
(** ** Ownership-scoped lookups *)

Lemma task_by_id_and_owner_none (task_id user_id : Z) (db : database) :
  not_owned task_id user_id db ->
  task_by_id_and_owner task_id user_id db = None.
Proof.
  unfold not_owned, task_by_id_and_owner.
  induction (tasks db) as [|t l IH]; intros H; simpl; [reflexivity|].
  destruct (Z.eqb_spec (Task.id t) task_id) as [Hid|]; simpl.
  - destruct (Z.eqb_spec (Task.user_id t) user_id) as [Hu|].
    + exfalso. apply (H t); simpl; auto.
    + apply IH. intros; apply H; simpl; auto.
  - apply IH. intros; apply H; simpl; auto.
Qed.

Lemma task_by_id_and_owner_some (task_id user_id : Z) (db : database) t :
  task_by_id_and_owner task_id user_id db = Some t ->
  In t (tasks db) /\ Task.id t = task_id /\ Task.user_id t = user_id.
Proof.
  unfold task_by_id_and_owner. intros H. apply find_some in H as (Hin & H).
  apply andb_true_iff in H as (H1 & H2).
  apply Z.eqb_eq in H1, H2. auto.
Qed.

(** C2. When no task of the store has both the requested id and the acting
    user as owner, whether the id is unknown or belongs to a task of someone
    else, edit (GET or POST), toggle and delete all end the same way: the
    store is unchanged, the one flashed message is the handler's error with
    the 404 Not Found exception, and the response is the redirect to the
    list.  Nothing in the outcome depends on the store, so a task of
    another account cannot be told from a missing one. *)
Theorem unowned_task_is_not_found :
  forall (now : clock) (method : http_method) (form : form_data)
         (task_id user_id : Z) (username : option str) (db : database),
    not_owned task_id user_id db ->
    let session := mksession (Some user_id) username in
    edit_task now method form task_id session db
    = mkoutcome db [(Caught (py "Error updating task: ") NotFound, py "error")]
        (Redirect (py "index"))
    /\ toggle_task task_id session db
       = mkoutcome db
           [(Caught (py "Error toggling task: ") NotFound, py "error")]
           (Redirect (py "index"))
    /\ delete_task task_id session db
       = mkoutcome db
           [(Caught (py "Error deleting task: ") NotFound, py "error")]
           (Redirect (py "index")).
Proof.
  intros now method form task_id user_id username db H session.
  unfold edit_task, toggle_task, delete_task, login_required, session.
  cbn [session_user_id].
  rewrite (task_by_id_and_owner_none H). repeat split.
Qed.

(** Task 7 belongs to user 2; user 1 asks for it. *)
Lemma unowned_task_is_not_found_witness :
  let db := mkdb [] [Task.mk 7 (py "Pay rent") None (Some (py "High")) None
                       (py "Not Started") 0 false 100 2] in
  let session := mksession (Some 1%Z) (Some (py "alice")) in
  toggle_task 7 session db
  = mkoutcome db [(Caught (py "Error toggling task: ") NotFound, py "error")]
      (Redirect (py "index")).
Proof.
  intros db session.
  refine (proj1 (proj2 (@unowned_task_is_not_found
                          (mkclock (mkdate 2026 11 3) 0) POST [] 7 1
                          (Some (py "alice")) db _))).
  intros t [<- | []] _. simpl. discriminate.
Defined.

(* ------------------------------------------------------------------ *)
(** ** Adding a task without a priority *)

Lemma default_priority_is_rejected :
  forall (form : form_data),
    form_get form (py "priority") = None ->
    get_safe_form_data form (py "priority") (Some (py "None"))
    = Some (py "None")
    /\ validate_priority (Some (py "None")) = (false, [msg_priority]).
Proof.
  intros form H. unfold get_safe_form_data, form_get_default. rewrite H.
  split; reflexivity.
Qed.

(** Whatever the other fields are, an add-task request with no priority
    field creates nothing and flashes the invalid-priority error. *)
Lemma add_task_without_priority :
  forall (now : clock) (form : form_data) (session : session_data)
         (db : database),
    form_get form (py "priority") = None ->
    db_after (add_task now form session db) = db
    /\ (session_user_id session <> None ->
        In (Text msg_priority, py "error")
          (flashed (add_task now form session db))).
Proof.
  intros now form session db H.
  destruct (default_priority_is_rejected form H) as (Hp & Hv).
  unfold add_task, login_required.
  destruct (session_user_id session) as [uid|]; [|split; [reflexivity|congruence]].
  rewrite Hp, validate_task_data_eq, Hv. cbn [fst snd].
  rewrite !andb_false_r, andb_false_l. cbn [negb db_after flashed].
  split; [reflexivity|]. intros _.
  unfold flash_errors. rewrite !map_app. cbn [map].
  rewrite !in_app_iff. right; right; left. left; reflexivity.
Qed.

(** C6 at its failing input. A logged-in user submits the add-task form
    with the title Buy milk and no priority field: title, description and due
    date are valid, the handler puts the default None in place of the
    priority, [validate_priority] rejects it, and no task is created. *)
Theorem add_task_default_priority_rejected :
  let form : form_data := [(py "title", py "Buy milk")] in
  let now := mkclock (mkdate 2026 11 3) 1000 in
  let session := mksession (Some 1%Z) (Some (py "alice")) in
  let db := mkdb [] [] in
  form_get form (py "priority") = None
  /\ validate_title (get_safe_form_data form (py "title") None) = (true, [])
  /\ validate_description (get_safe_form_data form (py "description") None)
     = (true, [])
  /\ validate_due_date (today now)
       (get_safe_form_data form (py "due_date") None) = (true, [])
  /\ get_safe_form_data form (py "priority") (Some (py "None"))
     = Some (py "None")
  /\ add_task now form session db
     = mkoutcome db [(Text msg_priority, py "error")] (Redirect (py "index")).
Proof. repeat split; reflexivity. Qed.

(** With the priority field present and left empty, or set to one of the
    three priorities, the same request creates the task. *)
Example add_task_with_priority_field :
  let now := mkclock (mkdate 2026 11 3) 1000 in
  let session := mksession (Some 1%Z) (Some (py "alice")) in
  let db := mkdb [] [] in
  tasks (db_after (add_task now
                     [(py "title", py "Buy milk"); (py "priority", py "")]
                     session db))
  = [Task.mk 1 (py "Buy milk") None None None (py "Not Started") 0 false
       1000 1]
  /\ tasks (db_after (add_task now
                        [(py "title", py "Buy milk"); (py "priority", py "Low")]
                        session db))
     = [Task.mk 1 (py "Buy milk") None (Some (py "Low")) None
          (py "Not Started") 0 false 1000 1].
Proof. split; reflexivity. Qed.

(* ------------------------------------------------------------------ *)
(** ** Registration *)

Lemma user_by_username_found (name : str) (db : database) :
  In name (map User.username (users db)) ->
  exists u, user_by_username (Some name) db = Some u.
Proof.
  unfold user_by_username. intros H.
  destruct (find (fun u => str_eqb (User.username u) name) (users db))
    as [u|] eqn:E; [eauto|].
  exfalso. apply in_map_iff in H as (u & Hu & Hin).
  apply (find_none _ _ E) in Hin. rewrite Hu, str_eqb_refl in Hin.
  discriminate.
Qed.

Lemma user_by_username_fresh (name : str) (db : database) :
  user_by_username (Some name) db = None ->
  ~ In name (map User.username (users db)).
Proof.
  intros E H. apply user_by_username_found in H as (u & H). congruence.
Qed.

Lemma user_by_email_found (e : str) (db : database) :
  In e (map User.email (users db)) ->
  exists u, user_by_email (Some e) db = Some u.
Proof.
  unfold user_by_email. intros H.
  destruct (find (fun u => str_eqb (User.email u) e) (users db))
    as [u|] eqn:E; [eauto|].
  exfalso. apply in_map_iff in H as (u & Hu & Hin).
  apply (find_none _ _ E) in Hin. rewrite Hu, str_eqb_refl in Hin.
  discriminate.
Qed.

Lemma user_by_email_fresh (e : str) (db : database) :
  user_by_email (Some e) db = None ->
  ~ In e (map User.email (users db)).
Proof.
  intros E H. apply user_by_email_found in H as (u & H). congruence.
Qed.

Lemma NoDup_snoc (A : Type) (l : list A) (x : A) :
  NoDup l -> ~ In x l -> NoDup (l ++ [x]).
Proof.
  intros Hl Hx. apply (Permutation_NoDup (Permutation_cons_append l x)).
  constructor; assumption.
Qed.

Lemma snoc_not_nil (A : Type) (l : list A) (x : A) : l ++ [x] <> [].
Proof. destruct l; discriminate. Qed.

(** What one registration request does to the accounts table: nothing, or
    one new row whose username and email were both absent. *)
Lemma register_effect :
  forall (hash : str -> str) (now : clock) (session : session_data)
         (method : http_method) (form : form_data) (db : database),
    let out := register hash now session method form db in
    tasks (db_after out) = tasks db
    /\ (db_after out = db
        \/ exists u,
             users (db_after out) = users db ++ [u]
             /\ Some (User.username u)
                = get_safe_form_data form (py "username") None
             /\ Some (User.email u)
                = get_safe_form_data form (py "email") None
             /\ user_by_username (Some (User.username u)) db = None
             /\ user_by_email (Some (User.email u)) db = None).
Proof.
  intros hash now session method form db. unfold register.
  destruct (session_user_id session); [simpl; auto|].
  destruct method; [simpl; auto|]. cbv zeta.
  set (username := get_safe_form_data form (py "username") None).
  set (email := get_safe_form_data form (py "email") None).
  set (e4 := if negb (opt_str_eqb _ _) then _ else _).
  destruct (user_by_username username db) eqn:Hu.
  { destruct (user_by_email email db); snoc_branch; simpl; auto. }
  destruct (user_by_email email db) eqn:He.
  { snoc_branch; simpl; auto. }
  destruct e4; [|simpl; auto].
  destruct username as [u|]; [|simpl; auto].
  destruct email as [e|]; [|simpl; auto].
  destruct (form_get form (py "password")); simpl; [|auto].
  split; [reflexivity|]. right. eexists. split; [reflexivity|]. simpl. auto.
Qed.

Lemma register_duplicate :
  forall (hash : str -> str) (now : clock) (session : session_data)
         (form : form_data) (db : database),
    session_user_id session = None ->
    let out := register hash now session POST form db in
    (user_by_username (get_safe_form_data form (py "username") None) db
     <> None ->
     db_after out = db /\ resp out = RenderRegister
     /\ In (Text (py "Username already exists."), py "error") (flashed out))
    /\ (user_by_email (get_safe_form_data form (py "email") None) db <> None ->
        db_after out = db /\ resp out = RenderRegister
        /\ In (Text (py "Email already registered."), py "error")
             (flashed out)).
Proof.
  intros hash now session form db Hs. unfold register. rewrite Hs.
  cbv zeta.
  set (username := get_safe_form_data form (py "username") None).
  set (email := get_safe_form_data form (py "email") None).
  set (e4 := if negb (opt_str_eqb _ _) then _ else _).
  split; intros Hdup.
  - destruct (user_by_username username db); [|congruence].
    destruct (user_by_email email db); snoc_branch;
      cbn [db_after resp flashed]; repeat split;
      unfold flash_errors; rewrite !map_app, !in_app_iff; simpl; auto.
  - destruct (user_by_email email db); [|congruence].
    destruct (user_by_username username db); snoc_branch;
      cbn [db_after resp flashed]; repeat split;
      unfold flash_errors; rewrite !map_app, !in_app_iff; simpl; auto.
Qed.

Lemma register_keeps_unique_accounts :
  forall (hash : str -> str) (now : clock) (session : session_data)
         (method : http_method) (form : form_data) (db : database),
    unique_accounts db ->
    unique_accounts (db_after (register hash now session method form db)).
Proof.
  intros hash now session method form db (Hu & He).
  destruct (register_effect hash now session method form db)
    as (_ & [-> | (u & E & _ & _ & Fu & Fe)]); [split; assumption|].
  unfold unique_accounts. rewrite E, !map_app. simpl. split.
  - apply NoDup_snoc; [assumption | apply user_by_username_fresh; assumption].
  - apply NoDup_snoc; [assumption | apply user_by_email_fresh; assumption].
Qed.

(** C8. A registration whose (sanitized) username or email is already in
    the accounts table creates no row, re-shows the form and flashes the
    duplicate error of the field; and every registration request, accepted or
    not, keeps usernames and emails each unique. *)
Theorem register_rejects_duplicates :
  forall (hash : str -> str) (now : clock) (session : session_data)
         (form : form_data) (db : database),
    session_user_id session = None ->
    let out := register hash now session POST form db in
    (forall name,
        get_safe_form_data form (py "username") None = Some name ->
        In name (map User.username (users db)) ->
        db_after out = db /\ resp out = RenderRegister
        /\ In (Text (py "Username already exists."), py "error") (flashed out))
    /\ (forall e,
          get_safe_form_data form (py "email") None = Some e ->
          In e (map User.email (users db)) ->
          db_after out = db /\ resp out = RenderRegister
          /\ In (Text (py "Email already registered."), py "error")
               (flashed out))
    /\ (unique_accounts db -> unique_accounts (db_after out)).
Proof.
  intros hash now session form db Hs out.
  destruct (register_duplicate hash now session form db Hs) as (Hu & He).
  split; [|split].
  - intros name E Hin. apply Hu. rewrite E.
    destruct (user_by_username_found name db Hin) as (u & ->). discriminate.
  - intros e E Hin. apply He. rewrite E.
    destruct (user_by_email_found e db Hin) as (u & ->). discriminate.
  - apply register_keeps_unique_accounts.
Qed.

(** The username bob is taken; the form asks for it with spaces around. *)
Lemma register_rejects_duplicates_witness :
  let db := mkdb [User.mk 1 (py "bob") (py "bob@example.org") (py "x") 0] [] in
  let form : form_data :=
    [(py "username", py " bob "); (py "email", py "new@example.org");
     (py "password", py "secret1"); (py "confirm_password", py "secret1")] in
  let out := register (fun p => p) (mkclock (mkdate 2026 11 3) 5)
               (mksession None None) POST form db in
  db_after out = db /\ resp out = RenderRegister
  /\ In (Text (py "Username already exists."), py "error") (flashed out).
Proof.
  intros db form out.
  refine (proj1 (@register_rejects_duplicates (fun p => p)
                   (mkclock (mkdate 2026 11 3) 5) (mksession None None)
                   form db eq_refl) (py "bob") eq_refl _).
  left; reflexivity.
Defined.

(** A registration with a fresh username and email adds the row. *)
Example register_fresh_account :
  let db := mkdb [User.mk 1 (py "bob") (py "bob@example.org") (py "x") 0] [] in
  let form : form_data :=
    [(py "username", py "carol"); (py "email", py "carol@example.org");
     (py "password", py "secret1"); (py "confirm_password", py "secret1")] in
  register (fun p => py "h:" ++ p) (mkclock (mkdate 2026 11 3) 5)
    (mksession None None) POST form db
  = mkoutcome
      (mkdb [User.mk 1 (py "bob") (py "bob@example.org") (py "x") 0;
             User.mk 2 (py "carol") (py "carol@example.org")
               (py "h:secret1") 5] [])
      [(Text (py "Registration successful! Please log in."), py "success")]
      (Redirect (py "login")).
Proof. reflexivity. Qed.

(* ------------------------------------------------------------------ *)
(** ** Day counts *)

Lemma days_before_next_year (y : Z) :
  days_before_year (y + 1)
  = (days_before_year y + 365 + (if is_leap y then 1 else 0))%Z.
Proof.
  unfold days_before_year, is_leap. cbv zeta.
  replace (y + 1 - 1)%Z with y by lia.
  destruct (Z.eqb_spec (y mod 4) 0); destruct (Z.eqb_spec (y mod 100) 0);
    destruct (Z.eqb_spec (y mod 400) 0); simpl;
    Z.div_mod_to_equations; lia.
Qed.

(** [toordinal] counts days: the day after [d] has the next ordinal. *)
Lemma toordinal_next_day (d : date) :
  valid_date d -> toordinal (next_day d) = (toordinal d + 1)%Z.
Proof.
  destruct d as [y m dd]. unfold valid_date, valid_ymd, next_day, toordinal.
  cbn [year month day]. rewrite !andb_true_iff, !Z.leb_le.
  intros (((((Hy1 & Hy2) & Hm1) & Hm2) & Hd1) & Hd2).
  destruct (Z.ltb_spec dd (days_in_month y m)) as [Hlt | Hge];
    cbn [year month day]; [lia|].
  assert (Hdd : dd = days_in_month y m) by lia. clear Hd2 Hge.
  destruct (Z.ltb_spec m 12) as [Hm | Hm]; cbn [year month day].
  - assert (Hcases : (m = 1 \/ m = 2 \/ m = 3 \/ m = 4 \/ m = 5 \/ m = 6
                      \/ m = 7 \/ m = 8 \/ m = 9 \/ m = 10 \/ m = 11)%Z)
      by lia.
    unfold days_before_month, days_in_month in *.
    generalize (days_before_year y); intros a.
    destruct (is_leap y);
      repeat (destruct Hcases as [-> | Hcases]; [subst dd; simpl; lia|]);
      subst; simpl; lia.
  - assert (Hm12 : m = 12%Z) by lia. subst m.
    rewrite days_before_next_year.
    unfold days_before_month, days_in_month in *.
    destruct (is_leap y); subst dd; simpl; lia.
Qed.

Example toordinal_epoch : toordinal (mkdate 1 1 1) = 1%Z.
Proof. reflexivity. Qed.

(* ------------------------------------------------------------------ *)
(** ** Listing tasks *)

Lemma insert_desc_perm (t : Task.row) (l : list Task.row) :
  Permutation (insert_desc t l) (t :: l).
Proof.
  induction l as [|u l IH]; simpl; [reflexivity|].
  destruct (Task.created_at u <=? Task.created_at t)%Z; [reflexivity|].
  rewrite IH. apply perm_swap.
Qed.

Lemma order_by_created_at_desc_perm (l : list Task.row) :
  Permutation (order_by_created_at_desc l) l.
Proof.
  induction l as [|t l IH]; simpl; [reflexivity|].
  rewrite insert_desc_perm. constructor; assumption.
Qed.

Lemma insert_desc_sorted (t : Task.row) (l : list Task.row) :
  StronglySorted newer_first l -> StronglySorted newer_first (insert_desc t l).
Proof.
  induction 1 as [|u l Hs IH Hu]; simpl.
  - repeat constructor.
  - destruct (Z.leb_spec (Task.created_at u) (Task.created_at t)) as [Hle|Hgt].
    + constructor; [constructor; assumption|].
      constructor; [exact Hle|].
      eapply Forall_impl; [|exact Hu].
      unfold newer_first; intros; lia.
    + constructor; [assumption|].
      apply (Permutation_Forall (Permutation_sym (insert_desc_perm t l))).
      constructor; [unfold newer_first; lia | assumption].
Qed.

Lemma order_by_created_at_desc_sorted (l : list Task.row) :
  StronglySorted newer_first (order_by_created_at_desc l).
Proof.
  induction l as [|t l IH]; simpl; [constructor|].
  apply insert_desc_sorted; assumption.
Qed.

Lemma annotate_all_parses (today : date) (ts : list Task.row) :
  (forall t, In t ts -> truthy (Task.due_date t) = true ->
             exists d, strptime_ymd (str_of (Task.due_date t)) = Some d) ->
  exists views,
    annotate_all today ts = Some views
    /\ map view_task views = ts
    /\ Forall (annotated today) views.
Proof.
  induction ts as [|t ts IH]; intros H; simpl.
  - exists []. repeat split. constructor.
  - destruct IH as (vs & -> & Hmap & Hall).
    { intros; apply H; simpl; auto. }
    unfold annotate_one.
    destruct (truthy (Task.due_date t)) eqn:Ht.
    + destruct (H t (or_introl eq_refl) Ht) as (d & Hd). rewrite Hd.
      eexists. split; [reflexivity|]. split; [simpl; congruence|].
      constructor; [|assumption].
      unfold annotated. cbn [view_task view_due_date days_left].
      rewrite Ht. exists d. repeat split. exact Hd.
    + eexists. split; [reflexivity|]. split; [simpl; congruence|].
      constructor; [|assumption].
      unfold annotated. cbn [view_task days_left]. rewrite Ht. reflexivity.
Qed.

Lemma index_renders :
  forall (now : clock) (user_id : Z) (username : option str) (db : database),
    due_dates_parse db ->
    exists views,
      index now (mksession (Some user_id) username) db
      = mkoutcome db [] (RenderIndex views)
      /\ map view_task views = order_by_created_at_desc (tasks_of user_id db)
      /\ Forall (annotated (today now)) views.
Proof.
  intros now user_id username db Hwf.
  unfold index, login_required. cbn [session_user_id]. cbv zeta.
  destruct (annotate_all_parses (today now)
              (order_by_created_at_desc (tasks_of user_id db)))
    as (views & E & Hmap & Hall).
  - intros t Hin. apply Hwf.
    apply (Permutation_in _ (order_by_created_at_desc_perm _)) in Hin.
    unfold tasks_of in Hin. apply filter_In in Hin. tauto.
  - exists views. rewrite E. auto.
Qed.

(** C9. For a logged-in user, on a store whose due dates are calendar date
    strings, [index] leaves the store as it is and renders exactly the tasks
    of that user, each once, the most recently created first; a task with a
    due date carries [days_left], the ordinal of the due date minus the
    ordinal of today, and a task without one carries no [days_left]. *)
Theorem index_lists_own_tasks :
  forall (now : clock) (user_id : Z) (username : option str) (db : database),
    due_dates_parse db ->
    exists views,
      index now (mksession (Some user_id) username) db
      = mkoutcome db [] (RenderIndex views)
      /\ Permutation (map view_task views)
           (filter (fun t => (Task.user_id t =? user_id)%Z) (tasks db))
      /\ (forall t, In t (map view_task views)
                    <-> In t (tasks db) /\ Task.user_id t = user_id)
      /\ StronglySorted
           (fun a b => (Task.created_at b <= Task.created_at a)%Z)
           (map view_task views)
      /\ Forall
           (fun v =>
              if truthy (Task.due_date (view_task v))
              then exists d,
                     strptime_ymd (str_of (Task.due_date (view_task v)))
                     = Some d
                     /\ days_left v
                        = Some (toordinal d - toordinal (today now))%Z
              else days_left v = None)
           views.
Proof.
  intros now user_id username db Hwf.
  destruct (index_renders now user_id username Hwf)
    as (views & E & Hmap & Hall).
  exists views. split; [exact E|]. rewrite Hmap.
  split; [apply order_by_created_at_desc_perm|]. split; [|split].
  - intros t. split.
    + intros Hin.
      apply (Permutation_in _ (order_by_created_at_desc_perm _)) in Hin.
      apply filter_In in Hin as (Hin & Hu). apply Z.eqb_eq in Hu. auto.
    + intros (Hin & Hu).
      apply (Permutation_in _
               (Permutation_sym (order_by_created_at_desc_perm _))).
      apply filter_In. split; [assumption | apply Z.eqb_eq; assumption].
  - apply order_by_created_at_desc_sorted.
  - eapply Forall_impl; [|exact Hall].
    intros v. unfold annotated.
    destruct (truthy (Task.due_date (view_task v))); [|auto].
    intros (d & H1 & _ & H2). eauto.
Qed.

(** Alice has two tasks, Bob one; Alice's list shows hers, newest first. *)
Lemma index_lists_own_tasks_witness :
  let shop := Task.mk 1 (py "Shop") None None (Some (py "2026-11-10"))
                (py "Not Started") 0 false 100 1 in
  let rent := Task.mk 2 (py "Pay rent") None None None
                (py "Not Started") 0 false 200 2 in
  let call := Task.mk 3 (py "Call mum") None None None
                (py "Not Started") 0 false 300 1 in
  let db := mkdb [] [shop; rent; call] in
  exists views,
    index (mkclock (mkdate 2026 11 3) 400) (mksession (Some 1%Z) None) db
    = mkoutcome db [] (RenderIndex views)
    /\ map view_task views = [call; shop]
    /\ map days_left views = [None; Some 7%Z].
Proof.
  intros shop rent call db.
  assert (Hwf : due_dates_parse db).
  { intros t [<- | [<- | [<- | []]]]; simpl; try discriminate.
    intros _. eexists; reflexivity. }
  destruct (@index_lists_own_tasks (mkclock (mkdate 2026 11 3) 400) 1 None db
              Hwf) as (views & E & _).
  exists views. split; [exact E|].
  vm_compute in E. injection E as <-. split; reflexivity.
Defined.

(** Without the hypothesis on the store the loop of [index] raises: a row
    whose due date is not a date string ends the request with the
    [ValueError] of [strptime]. *)
Example index_malformed_due_date :
  let db := mkdb [] [Task.mk 1 (py "Shop") None None (Some (py "soon"))
                       (py "Not Started") 0 false 100 1] in
  index (mkclock (mkdate 2026 11 3) 400) (mksession (Some 1%Z) None) db
  = mkoutcome db [] (Unhandled ValueError).
Proof. reflexivity. Qed.

(* ------------------------------------------------------------------ *)
(** ** Invariants of the reachable stores *)

Lemma validated_due_date_parses (today : date) (due_date : option str) :
  fst (validate_due_date today due_date) = true ->
  truthy due_date = true ->
  exists d, strptime_ymd (str_of due_date) = Some d.
Proof.
  unfold validate_due_date. intros H Ht. rewrite Ht in H.
  destruct (strptime_ymd (str_of due_date)); [eauto | discriminate].
Qed.

Lemma validated_task_due_date (today : date)
    (title description priority due_date : option str) :
  fst (validate_task_data today title description priority due_date) = true ->
  truthy due_date = true ->
  exists d, strptime_ymd (str_of due_date) = Some d.
Proof.
  rewrite validate_task_data_eq. cbn [fst]. rewrite !andb_true_iff.
  intros (_ & H). exact (@validated_due_date_parses today due_date H).
Qed.

Lemma add_task_effect :
  forall (now : clock) (form : form_data) (session : session_data)
         (db : database),
    let out := add_task now form session db in
    users (db_after out) = users db
    /\ (db_after out = db
        \/ exists t,
             tasks (db_after out) = tasks db ++ [t]
             /\ Some (Task.user_id t) = session_user_id session
             /\ (truthy (Task.due_date t) = true ->
                 exists d, strptime_ymd (str_of (Task.due_date t)) = Some d)).
Proof.
  intros now form session db. unfold add_task, login_required.
  destruct (session_user_id session) as [uid|]; [|simpl; auto].
  set (title := get_safe_form_data form (py "title") None).
  set (description := get_safe_form_data form (py "description") None).
  set (priority := get_safe_form_data form (py "priority") _).
  set (due_date := get_safe_form_data form (py "due_date") None).
  pose proof (@validated_task_due_date (today now) title description priority
                due_date) as Hv.
  destruct (validate_task_data (today now) title description priority due_date)
    as [[|] errors]; cbn [negb fst] in *; [|simpl; auto].
  destruct (form_duration form); [|simpl; auto].
  destruct title; [|simpl; auto].
  cbn [db_after users tasks]. split; [reflexivity|]. right.
  eexists. split; [reflexivity|]. cbn [Task.user_id Task.due_date]. auto.
Qed.

Lemma update_task_in (t' : Task.row) (db : database) (t : Task.row) :
  In t (tasks (update_task t' db)) -> t = t' \/ In t (tasks db).
Proof.
  unfold update_task. cbn [tasks]. rewrite in_map_iff.
  intros (r & E & Hin). destruct (Task.id r =? Task.id t')%Z; subst; auto.
Qed.

Lemma edit_task_keeps_due_dates :
  forall (now : clock) (method : http_method) (form : form_data) (task_id : Z)
         (session : session_data) (db : database),
    due_dates_parse db ->
    due_dates_parse
      (db_after (edit_task now method form task_id session db)).
Proof.
  intros now method form task_id session db Hwf.
  unfold edit_task, login_required.
  destruct (session_user_id session) as [uid|]; [|exact Hwf].
  destruct (task_by_id_and_owner task_id uid db) as [task|]; [|exact Hwf].
  destruct method; [exact Hwf|].
  set (title := get_safe_form_data form (py "title") None).
  set (description := get_safe_form_data form (py "description") None).
  set (priority := get_safe_form_data form (py "priority") _).
  set (due_date := get_safe_form_data form (py "due_date") None).
  pose proof (@validated_task_due_date (today now) title description priority
                due_date) as Hv.
  destruct (validate_task_data (today now) title description priority due_date)
    as [[|] errors]; cbn [negb fst] in *; [|exact Hwf].
  destruct (form_duration form); [|exact Hwf].
  destruct title; [|exact Hwf].
  cbn [db_after]. intros t Hin.
  apply update_task_in in Hin as [-> | Hin]; [|apply Hwf; assumption].
  cbn [Task.due_date]. auto.
Qed.

Lemma toggle_task_keeps_due_dates :
  forall (task_id : Z) (session : session_data) (db : database),
    due_dates_parse db ->
    due_dates_parse (db_after (toggle_task task_id session db)).
Proof.
  intros task_id session db Hwf. unfold toggle_task, login_required.
  destruct (session_user_id session) as [uid|]; [|exact Hwf].
  destruct (task_by_id_and_owner task_id uid db) as [task|] eqn:E;
    [|exact Hwf].
  apply task_by_id_and_owner_some in E as (Hin & _).
  cbn [db_after]. intros t Ht.
  apply update_task_in in Ht as [-> | Ht]; [|apply Hwf; assumption].
  cbn [set_completed Task.due_date]. apply Hwf; assumption.
Qed.

Lemma delete_task_keeps_due_dates :
  forall (task_id : Z) (session : session_data) (db : database),
    due_dates_parse db ->
    due_dates_parse (db_after (delete_task task_id session db)).
Proof.
  intros task_id session db Hwf. unfold delete_task, login_required.
  destruct (session_user_id session) as [uid|]; [|exact Hwf].
  destruct (task_by_id_and_owner task_id uid db) as [task|]; [|exact Hwf].
  cbn [db_after delete_row]. intros t Ht. cbn [tasks] in Ht.
  apply filter_In in Ht as (Ht & _). apply Hwf; assumption.
Qed.

Lemma index_keeps_store (now : clock) (session : session_data)
    (db : database) :
  db_after (index now session db) = db.
Proof.
  unfold index, login_required.
  destruct (session_user_id session); [|reflexivity].
  cbv zeta. destruct (annotate_all _ _); reflexivity.
Qed.

(** Every store the application reaches holds only due dates that parse:
    the hypothesis of the listing theorem is an invariant. *)
Lemma reachable_due_dates_parse (hash : str -> str) (db : database) :
  reachable hash db -> due_dates_parse db.
Proof.
  induction 1 as [|db now session r _ IH].
  - intros t [].
  - destruct r as [method form| |form|method form task_id|task_id|task_id];
      cbn [handle].
    + destruct (register_effect hash now session method form db) as (E & _).
      intros t. rewrite E. apply IH.
    + rewrite index_keeps_store. exact IH.
    + destruct (add_task_effect now form session db)
        as (_ & [-> | (t & E & _ & Ht)]); [exact IH|].
      intros t'. rewrite E, in_app_iff.
      intros [Hin | [<- | []]]; [apply IH; assumption | exact Ht].
    + apply edit_task_keeps_due_dates; exact IH.
    + apply toggle_task_keeps_due_dates; exact IH.
    + apply delete_task_keeps_due_dates; exact IH.
Qed.

Lemma task_handlers_keep_users :
  forall (now : clock) (method : http_method) (form : form_data) (task_id : Z)
         (session : session_data) (db : database),
    users (db_after (edit_task now method form task_id session db)) = users db
    /\ users (db_after (toggle_task task_id session db)) = users db
    /\ users (db_after (delete_task task_id session db)) = users db.
Proof.
  intros now method form task_id session db.
  unfold edit_task, toggle_task, delete_task, login_required.
  destruct (session_user_id session) as [uid|]; [|auto].
  destruct (task_by_id_and_owner task_id uid db) as [task|]; [|auto].
  split; [|split; reflexivity].
  destruct method; [reflexivity|].
  destruct (validate_task_data _ _ _ _ _) as [[|] errors]; [|reflexivity].
  cbn [negb]. destruct (form_duration form); [|reflexivity].
  destruct (get_safe_form_data form (py "title") None); reflexivity.
Qed.

(** Every store the application reaches has unique usernames and emails. *)
Lemma reachable_unique_accounts (hash : str -> str) (db : database) :
  reachable hash db -> unique_accounts db.
Proof.
  induction 1 as [|db now session r _ IH].
  - split; constructor.
  - destruct r as [method form| |form|method form task_id|task_id|task_id];
      cbn [handle].
    + apply register_keeps_unique_accounts; exact IH.
    + rewrite index_keeps_store. exact IH.
    + destruct (add_task_effect now form session db) as (E & _).
      unfold unique_accounts. rewrite E. exact IH.
    + destruct (task_handlers_keep_users now method form task_id session db)
        as (E & _). unfold unique_accounts. rewrite E. exact IH.
    + destruct (task_handlers_keep_users now GET [] task_id session db)
        as (_ & E & _). unfold unique_accounts. rewrite E. exact IH.
    + destruct (task_handlers_keep_users now GET [] task_id session db)
        as (_ & _ & E). unfold unique_accounts. rewrite E. exact IH.
Qed.

(* ------------------------------------------------------------------ *)
(** ** More on the validators *)

(** X1. A description is valid exactly when its trimmed length is at most
    1000, an absent description counting as empty; an invalid one gets the
    one too-long error.  Whitespace around the text does not count. *)
Theorem validate_description_spec :
  forall description : option str,
    (fst (validate_description description) = true
     <-> length (strip (str_of description)) <= 1000)
    /\ (fst (validate_description description) = false
        <-> validate_description description = (false, [msg_description_long])).
Proof.
  intros [[|c t]|].
  - split; [split; [intros _; simpl; lia | reflexivity]|].
    split; discriminate.
  - unfold validate_description. cbn [truthy str_of]. cbv zeta.
    destruct (Nat.ltb_spec 1000 (length (strip (c :: t)))); simpl.
    + split; [split; [discriminate | lia] | split; reflexivity].
    + split; [split; [intros _; assumption | reflexivity]|].
      split; discriminate.
  - split; [split; [intros _; simpl; lia | reflexivity]|].
    split; discriminate.
Qed.

(** A description of 1001 characters is rejected; padded to 1000 characters
    of text with spaces around, it is accepted. *)
Example validate_description_bounds :
  validate_description (Some (repeat "a"%char 1001))
  = (false, [msg_description_long])
  /\ validate_description
       (Some (py "   " ++ repeat "a"%char 1000 ++ py "   ")) = (true, []).
Proof. split; vm_compute; reflexivity. Qed.

(** X2. On a day whose fifth anniversary max_future exists, a present due
    date gets the format error exactly when it does not parse, and a due
    date that parses to d is valid exactly when d is neither before today
    nor after max_future. *)
Theorem validate_due_date_on_regular_day :
  forall (today max_future : date) (s : str),
    new_date (year today + 5) (month today) (day today) = Some max_future ->
    s <> [] ->
    (In msg_date_format (snd (validate_due_date today (Some s)))
     <-> strptime_ymd s = None)
    /\ (forall d, strptime_ymd s = Some d ->
          (fst (validate_due_date today (Some s)) = true
           <-> date_ltb d today = false /\ date_ltb max_future d = false)).
Proof. exact validate_due_date_regular_day. Qed.

Lemma validate_due_date_on_regular_day_witness :
  (In msg_date_format
     (snd (validate_due_date (mkdate 2026 11 3) (Some (py "2026-12-24"))))
   <-> strptime_ymd (py "2026-12-24") = None)
  /\ (forall d, strptime_ymd (py "2026-12-24") = Some d ->
        (fst (validate_due_date (mkdate 2026 11 3) (Some (py "2026-12-24")))
         = true
         <-> date_ltb d (mkdate 2026 11 3) = false
             /\ date_ltb (mkdate 2031 11 3) d = false)).
Proof.
  apply (@validate_due_date_on_regular_day (mkdate 2026 11 3)
           (mkdate 2031 11 3) (py "2026-12-24")).
  - reflexivity.
  - discriminate.
Defined.

(** X3. When today is 29 February, every present due date is invalid and
    carries the format error, whether it parses or not. *)
Theorem validate_due_date_rejects_all_on_leap_day :
  forall (y : Z) (s : str),
    is_leap y = true -> s <> [] ->
    fst (validate_due_date (mkdate y 2 29) (Some s)) = false
    /\ In msg_date_format (snd (validate_due_date (mkdate y 2 29) (Some s))).
Proof. exact validate_due_date_leap_day_rejects. Qed.

Lemma validate_due_date_rejects_all_on_leap_day_witness :
  fst (validate_due_date (mkdate 2028 2 29) (Some (py "2028-06-01"))) = false
  /\ In msg_date_format
       (snd (validate_due_date (mkdate 2028 2 29) (Some (py "2028-06-01")))).
Proof.
  apply (@validate_due_date_rejects_all_on_leap_day 2028 (py "2028-06-01")).
  - reflexivity.
  - discriminate.
Defined.

(* ------------------------------------------------------------------ *)
(** ** More on the sanitizer *)

Lemma Subseq_refl (s : str) : Subseq s s.
Proof. induction s; constructor; assumption. Qed.

Lemma Subseq_trans (a b c : str) : Subseq a b -> Subseq b c -> Subseq a c.
Proof.
  intros Hab Hbc. revert a Hab.
  induction Hbc as [|x b c Hbc IH|x b c Hbc IH]; intros a Hab.
  - assumption.
  - inversion Hab; subst.
    + constructor. apply IH; assumption.
    + apply Subseq_drop. apply IH; assumption.
  - apply Subseq_drop. apply IH; assumption.
Qed.

Lemma Subseq_length (a b : str) : Subseq a b -> length a <= length b.
Proof. induction 1; simpl; lia. Qed.

Lemma Subseq_snoc (a b : str) (c : ascii) :
  Subseq a b -> Subseq (a ++ [c]) (b ++ [c]) /\ Subseq a (b ++ [c]).
Proof.
  induction 1 as [|x a b H (IH1 & IH2)|x a b H (IH1 & IH2)]; simpl.
  - split; repeat constructor.
  - split; constructor; assumption.
  - split; constructor; assumption.
Qed.

Lemma Subseq_rev (a b : str) : Subseq a b -> Subseq (rev a) (rev b).
Proof.
  induction 1 as [|x a b H IH|x a b H IH]; simpl.
  - constructor.
  - exact (proj1 (Subseq_snoc x IH)).
  - exact (proj2 (Subseq_snoc x IH)).
Qed.

Lemma drop_while_subseq (f : ascii -> bool) (s : str) :
  Subseq (drop_while f s) s.
Proof.
  induction s as [|c s IH]; simpl; [constructor|].
  destruct (f c); [constructor; assumption | apply Subseq_refl].
Qed.

Lemma strip_subseq (s : str) : Subseq (strip s) s.
Proof.
  unfold strip, rstrip, lstrip.
  apply Subseq_trans with (drop_while isspace s);
    [|apply drop_while_subseq].
  rewrite <- (rev_involutive (drop_while isspace s)) at 2.
  apply Subseq_rev, drop_while_subseq.
Qed.

Lemma delete_scan_subseq (old : str) (k : nat) (s : str) :
  Subseq (delete_scan old k s) s.
Proof.
  revert k; induction s as [|c s IH]; intros k; [constructor|].
  cbn [delete_scan]. destruct k as [|k]; [|constructor; apply IH].
  destruct (starts_with old (c :: s)); constructor; apply IH.
Qed.

Lemma replace_empty_subseq (old s : str) : Subseq (replace_empty old s) s.
Proof.
  destruct old; [apply Subseq_refl | apply delete_scan_subseq].
Qed.

(** X4. [sanitize_input] only removes: a result is the input with some
    characters left out and the others in their order, so it is never
    longer than the input and holds no character the input did not. *)
Theorem sanitize_input_only_removes :
  forall s r : str,
    sanitize_input (Some s) = Some r ->
    Subseq r s /\ length r <= length s /\ (forall c, In c r -> In c s).
Proof.
  intros s r H.
  assert (Hsub : Subseq r s).
  { unfold sanitize_input in H. cbv zeta in H.
    destruct (negb (truthy (Some (strip s)))); [discriminate|].
    injection H as <-.
    repeat (eapply Subseq_trans;
            [first [apply replace_empty_subseq | apply delete_scan_subseq]|]).
    apply strip_subseq. }
  split; [exact Hsub|]. split; [apply Subseq_length; exact Hsub|].
  clear H. induction Hsub; simpl; intuition auto.
Qed.

Lemma sanitize_input_only_removes_witness :
  Subseq (py "alert(1)") (py "  <script>alert(1)</script>  ")
  /\ length (py "alert(1)") <= length (py "  <script>alert(1)</script>  ")
  /\ (forall c, In c (py "alert(1)")
                -> In c (py "  <script>alert(1)</script>  ")).
Proof.
  apply (@sanitize_input_only_removes (py "  <script>alert(1)</script>  ")
           (py "alert(1)")).
  reflexivity.
Defined.

(** X5. Clean text passes through unchanged: a non-empty string with no
    whitespace at its ends and no occurrence of a denylisted substring is
    returned as it is. *)
Theorem sanitize_input_clean_text :
  forall s : str,
    s <> [] -> strip s = s ->
    (forall p, In p denylist -> ~ occurs p s) ->
    sanitize_input (Some s) = Some s.
Proof.
  intros s Hs Hstrip Hclean.
  unfold sanitize_input. cbv zeta. rewrite Hstrip.
  destruct s as [|c t]; [congruence|]. cbn [truthy negb].
  assert (Hpass : forall p, In p denylist ->
                    replace_empty p (c :: t) = c :: t).
  { intros p Hp. apply replace_empty_no_occurrence; [|apply Hclean; exact Hp].
    unfold denylist in Hp. simpl in Hp.
    destruct Hp as [<- | [<- | [<- | [<- | [<- | []]]]]]; discriminate. }
  unfold denylist in Hpass.
  rewrite (Hpass (py "<script>")) by (simpl; auto).
  rewrite (Hpass (py "</script>")) by (simpl; auto).
  rewrite (Hpass (py "javascript:")) by (simpl; auto).
  rewrite (Hpass (py "onerror=")) by (simpl; auto).
  rewrite (Hpass (py "onclick=")) by (simpl; auto 6).
  reflexivity.
Qed.

Lemma sanitize_input_clean_text_witness :
  sanitize_input (Some (py "Call Bob")) = Some (py "Call Bob").
Proof.
  apply sanitize_input_clean_text.
  - discriminate.
  - reflexivity.
  - intros p Hp (a & b & E).
    destruct a as [|a0 [|a1 [|a2 [|a3 [|a4 [|a5 [|a6 [|a7 [|a8 a]]]]]]]]];
      simpl in Hp;
      destruct Hp as [<- | [<- | [<- | [<- | [<- | []]]]]];
      discriminate E.
Defined.

(* ------------------------------------------------------------------ *)
(** ** Dates in canonical form *)

Lemma Z_range_cases (P : Z -> Prop) (lo : Z) (n : nat) :
  (forall k, k < n -> P (lo + Z.of_nat k)%Z) ->
  forall z, (lo <= z < lo + Z.of_nat n)%Z -> P z.
Proof.
  intros H z Hz.
  replace z with (lo + Z.of_nat (Z.to_nat (z - lo)))%Z by lia.
  apply H. lia.
Qed.

Lemma digit_char_spec (n : Z) :
  (0 <= n <= 9)%Z ->
  isdigit (digit_char n) = true /\ digit_val (digit_char n) = n.
Proof.
  intros Hn. assert (H : (0 <= n < 0 + Z.of_nat 10)%Z) by lia.
  clear Hn. revert n H. apply Z_range_cases.
  intros k Hk. do 10 (destruct k as [|k]; [split; reflexivity|]). lia.
Qed.

Lemma month_day_text (m d : Z) :
  (1 <= m <= 12)%Z -> (1 <= d <= 31)%Z ->
  first_match match_after_month
    (month_alternatives
       [digit_char (m / 10); digit_char (m mod 10); "-"%char;
        digit_char (d / 10); digit_char (d mod 10)])
  = Some (m, d, []).
Proof.
  intros Hm Hd.
  assert (Hm' : (1 <= m < 1 + Z.of_nat 12)%Z) by lia.
  assert (Hd' : (1 <= d < 1 + Z.of_nat 31)%Z) by lia.
  clear Hm Hd. revert d Hd'. revert m Hm'.
  apply (@Z_range_cases
           (fun m => forall d, (1 <= d < 1 + Z.of_nat 31)%Z -> _)).
  intros j Hj. apply Z_range_cases. intros k Hk.
  do 12 (destruct j as [|j];
         [do 31 (destruct k as [|k]; [vm_compute; reflexivity|]); lia|]).
  lia.
Qed.

Lemma strptime_isoformat (d : date) :
  valid_date d -> strptime_ymd (isoformat d) = Some d.
Proof.
  destruct d as [y m dd]. unfold valid_date. cbn [year month day].
  intros Hv. pose proof Hv as Hv'. unfold valid_ymd in Hv'.
  rewrite !andb_true_iff, !Z.leb_le in Hv'.
  destruct Hv' as (((((Hy1 & Hy2) & Hm1) & Hm2) & Hd1) & Hd2).
  assert (Hd31 : (dd <= 31)%Z).
  { unfold days_in_month in Hd2.
    destruct (m =? 2)%Z; [destruct (is_leap y)|
      destruct ((m =? 4) || (m =? 6) || (m =? 9) || (m =? 11))%Z]; lia. }
  destruct (@digit_char_spec (y / 1000)) as (I1 & V1);
    [Z.div_mod_to_equations; lia|].
  destruct (@digit_char_spec (y / 100 mod 10)) as (I2 & V2);
    [Z.div_mod_to_equations; lia|].
  destruct (@digit_char_spec (y / 10 mod 10)) as (I3 & V3);
    [Z.div_mod_to_equations; lia|].
  destruct (@digit_char_spec (y mod 10)) as (I4 & V4);
    [Z.div_mod_to_equations; lia|].
  unfold strptime_ymd, isoformat, match_ymd. cbn [year month day].
  rewrite I1, I2, I3, I4, V1, V2, V3, V4. cbn [andb Ascii.eqb Bool.eqb].
  rewrite month_day_text by lia.
  replace (1000 * (y / 1000) + 100 * (y / 100 mod 10)
           + 10 * (y / 10 mod 10) + y mod 10)%Z with y
    by (Z.div_mod_to_equations; lia).
  unfold new_date. rewrite Hv. reflexivity.
Qed.

Lemma strptime_ymd_valid (s : str) (d : date) :
  strptime_ymd s = Some d -> valid_date d.
Proof.
  unfold strptime_ymd, new_date, valid_date.
  destruct (match_ymd s) as [[[[y m] dd] [|c rest]]|]; try discriminate.
  destruct (valid_ymd y m dd) eqn:E; [|discriminate].
  intros H; injection H as <-. exact E.
Qed.

(** X6. The parser of due dates reads every calendar date written as
    zero-padded YYYY-MM-DD back as that date, and whatever it returns is a
    calendar date (year 1 to 9999, a day that exists in its month). *)
Theorem strptime_ymd_round_trip :
  (forall d : date, valid_date d -> strptime_ymd (isoformat d) = Some d)
  /\ (forall (s : str) (d : date), strptime_ymd s = Some d -> valid_date d).
Proof. split; [exact strptime_isoformat | exact strptime_ymd_valid]. Qed.

(** X7. On a day whose fifth anniversary max_future exists, a calendar
    date in canonical form is never a format error: it is valid exactly
    when it lies between today and max_future, gets the past error when it
    is before today and the too-far error when it is after max_future. *)
Theorem validate_due_date_canonical :
  forall today max_future d : date,
    valid_date d ->
    new_date (year today + 5) (month today) (day today) = Some max_future ->
    validate_due_date today (Some (isoformat d))
    = (negb (date_ltb d today) && negb (date_ltb max_future d),
       (if date_ltb d today then [msg_date_past] else [])
       ++ (if date_ltb max_future d then [msg_date_far] else [])).
Proof.
  intros today max_future d Hd Hmax.
  unfold validate_due_date. cbn [truthy isoformat str_of].
  change (strptime_ymd _) with (strptime_ymd (isoformat d)).
  rewrite (strptime_isoformat Hd), Hmax.
  destruct (date_ltb d today); destruct (date_ltb max_future d); reflexivity.
Qed.

Lemma validate_due_date_canonical_witness :
  validate_due_date (mkdate 2026 11 3) (Some (isoformat (mkdate 2027 2 28)))
  = (true, []).
Proof.
  apply (@validate_due_date_canonical (mkdate 2026 11 3) (mkdate 2031 11 3)
           (mkdate 2027 2 28)); reflexivity.
Defined.

(* ------------------------------------------------------------------ *)
(** ** Date order and day counts *)

Lemma days_before_year_mono (a b : Z) :
  (a <= b)%Z -> (days_before_year a <= days_before_year b)%Z.
Proof.
  unfold days_before_year. cbv zeta. intros H.
  Z.div_mod_to_equations. lia.
Qed.

Lemma toordinal_in_year (d : date) :
  valid_date d ->
  (days_before_year (year d) + 1 <= toordinal d
   <= days_before_year (year d) + 365
      + (if is_leap (year d) then 1 else 0))%Z.
Proof.
  destruct d as [y m dd]. unfold valid_date, valid_ymd, toordinal.
  cbn [year month day]. rewrite !andb_true_iff, !Z.leb_le.
  intros (((((Hy1 & Hy2) & Hm1) & Hm2) & Hd1) & Hd2).
  assert (Hm : (1 <= m < 1 + Z.of_nat 12)%Z) by lia.
  clear Hm1 Hm2. revert m Hm Hd2.
  apply (@Z_range_cases (fun m => (dd <= days_in_month y m)%Z -> _)).
  intros k Hk. unfold days_before_month, days_in_month.
  generalize (days_before_year y); intros a.
  do 12 (destruct k as [|k]; [destruct (is_leap y); simpl; lia|]). lia.
Qed.

Lemma days_before_month_step (y m1 m2 : Z) :
  (1 <= m1)%Z -> (m1 < m2)%Z -> (m2 <= 12)%Z ->
  (days_before_month y m1 + days_in_month y m1 <= days_before_month y m2)%Z.
Proof.
  intros H1 H12 H2.
  assert (Hm1 : (1 <= m1 < 1 + Z.of_nat 12)%Z) by lia.
  assert (Hm2 : (1 <= m2 < 1 + Z.of_nat 12)%Z) by lia.
  clear H1 H2. revert m2 Hm2 H12. revert m1 Hm1.
  apply (@Z_range_cases
           (fun m1 =>
              forall m2, (1 <= m2 < 1 + Z.of_nat 12)%Z -> (m1 < m2)%Z ->
                (days_before_month y m1 + days_in_month y m1
                 <= days_before_month y m2)%Z)).
  intros j Hj.
  apply (@Z_range_cases
           (fun m2 =>
              (1 + Z.of_nat j < m2)%Z ->
              (days_before_month y (1 + Z.of_nat j)
               + days_in_month y (1 + Z.of_nat j)
               <= days_before_month y m2)%Z)).
  intros k Hk.
  unfold days_before_month, days_in_month.
  do 12 (destruct j as [|j];
         [do 12 (destruct k as [|k];
                 [destruct (is_leap y); simpl; lia|]); lia|]).
  lia.
Qed.

Lemma date_ltb_toordinal (a b : date) :
  valid_date a -> valid_date b ->
  date_ltb a b = true -> (toordinal a < toordinal b)%Z.
Proof.
  intros Ha Hb.
  pose proof (toordinal_in_year Ha) as Ba.
  pose proof (toordinal_in_year Hb) as Bb.
  destruct a as [ya ma da], b as [yb mb db].
  unfold valid_date, valid_ymd in Ha, Hb. cbn [year month day] in *.
  rewrite !andb_true_iff, !Z.leb_le in Ha, Hb.
  unfold date_ltb. cbn [year month day].
  rewrite !orb_true_iff, !andb_true_iff, !orb_true_iff, !andb_true_iff,
    !Z.ltb_lt, !Z.eqb_eq.
  intros [Hy | (-> & [Hm | (-> & Hd)])].
  - pose proof (days_before_next_year ya) as Hn.
    pose proof (@days_before_year_mono (ya + 1) yb) as Hmono. lia.
  - unfold toordinal. cbn [year month day].
    pose proof (@days_before_month_step yb ma mb). lia.
  - unfold toordinal. cbn [year month day]. lia.
Qed.

Lemma date_trichotomy (a b : date) :
  date_ltb a b = true \/ a = b \/ date_ltb b a = true.
Proof.
  destruct a as [ya ma da], b as [yb mb db]. unfold date_ltb.
  cbn [year month day].
  rewrite !orb_true_iff, !andb_true_iff, !orb_true_iff, !andb_true_iff,
    !Z.ltb_lt, !Z.eqb_eq.
  destruct (Z.lt_trichotomy ya yb) as [?|[->|?]]; auto.
  destruct (Z.lt_trichotomy ma mb) as [?|[->|?]]; auto 6.
  destruct (Z.lt_trichotomy da db) as [?|[->|?]]; auto 8.
Qed.

(** The order of dates is the order of their ordinals. *)
Lemma date_order_is_ordinal_order (a b : date) :
  valid_date a -> valid_date b ->
  (date_ltb a b = true <-> (toordinal a < toordinal b)%Z)
  /\ (a = b <-> toordinal a = toordinal b).
Proof.
  intros Ha Hb.
  pose proof (@date_ltb_toordinal a b Ha Hb) as Hab.
  pose proof (@date_ltb_toordinal b a Hb Ha) as Hba.
  destruct (date_trichotomy a b) as [H | [H | H]].
  - split; [tauto|]. split; [intros ->|]; specialize (Hab H); lia.
  - subst b. split; [|tauto].
    split; [assumption | lia].
  - specialize (Hba H). split.
    + split; [intros H'; specialize (Hab H'); lia | lia].
    + split; [intros ->; lia | lia].
Qed.

Lemma annotate_all_each (today : date) (ts : list Task.row)
    (views : list task_view) :
  annotate_all today ts = Some views ->
  Forall (fun v => annotate_one today (view_task v) = Some v) views.
Proof.
  revert views; induction ts as [|t ts IH]; intros views; simpl.
  - intros H; injection H as <-; constructor.
  - destruct (annotate_one today t) as [v|] eqn:Ev; [|discriminate].
    destruct (annotate_all today ts) as [vs|]; [|discriminate].
    intros H; injection H as <-. constructor; [|apply IH; reflexivity].
    assert (view_task v = t); [|congruence].
    unfold annotate_one in Ev.
    destruct (truthy (Task.due_date t));
      [destruct (strptime_ymd _)|]; inversion Ev; reflexivity.
Qed.

(** X8. In the list [index] renders, a task with a due date carries a
    number of days that is negative exactly when the due date is before
    today, in the order [validate_due_date] uses for its past-date check,
    and zero exactly when the task is due today. *)
Theorem index_days_left_sign :
  forall (now : clock) (user_id : Z) (username : option str) (db : database)
         (views : list task_view),
    valid_date (today now) ->
    index now (mksession (Some user_id) username) db
    = mkoutcome db [] (RenderIndex views) ->
    Forall
      (fun v =>
         forall d, view_due_date v = Some d ->
           exists n, days_left v = Some n
                     /\ ((n < 0)%Z <-> date_ltb d (today now) = true)
                     /\ (n = 0%Z <-> d = today now))
      views.
Proof.
  intros now user_id username db views Htoday.
  unfold index, login_required. cbn [session_user_id]. cbv zeta.
  destruct (annotate_all (today now) _) as [vs|] eqn:E; [|discriminate].
  intros H. injection H as <-.
  eapply Forall_impl; [|exact (annotate_all_each _ _ E)].
  intros v. unfold annotate_one.
  destruct (truthy (Task.due_date (view_task v)));
    [destruct (strptime_ymd _) as [d|] eqn:Ed|]; try discriminate;
    intros Hv; injection Hv as <-; cbn [view_due_date days_left];
    intros d' Hd'; [|discriminate].
  injection Hd' as <-. apply strptime_ymd_valid in Ed.
  destruct (@date_order_is_ordinal_order d (today now) Ed Htoday)
    as (Hlt & Heq).
  exists (days_between d (today now)). unfold days_between.
  split; [reflexivity|]. split.
  - rewrite Hlt. lia.
  - rewrite Heq. lia.
Qed.

Lemma index_days_left_sign_witness :
  let late := Task.mk 1 (py "Tax form") None None (Some (py "2026-10-31"))
                (py "Not Started") 0 false 100 1 in
  let due := Task.mk 2 (py "Pay rent") None None (Some (py "2026-11-03"))
               (py "Not Started") 0 false 200 1 in
  Forall
    (fun v =>
       forall d, view_due_date v = Some d ->
         exists n, days_left v = Some n
                   /\ ((n < 0)%Z <-> date_ltb d (mkdate 2026 11 3) = true)
                   /\ (n = 0%Z <-> d = mkdate 2026 11 3))
    [mkview due (Some (mkdate 2026 11 3)) (Some 0%Z);
     mkview late (Some (mkdate 2026 10 31)) (Some (-3)%Z)].
Proof.
  intros late due.
  apply (@index_days_left_sign (mkclock (mkdate 2026 11 3) 400) 1 None
           (mkdb [] [late; due])).
  - reflexivity.
  - reflexivity.
Defined.

(** X9. The day count of [index] counts calendar days: moving the due date
    to the next day adds one, and a date is zero days from itself. *)
Theorem days_between_counts_days :
  forall d t : date,
    valid_date d ->
    days_between (next_day d) t = (days_between d t + 1)%Z
    /\ days_between d d = 0%Z.
Proof.
  intros d t Hd. unfold days_between.
  rewrite (toordinal_next_day Hd). lia.
Qed.

(** The last day of February 2028, a leap year, and the day after. *)
Lemma days_between_counts_days_witness :
  days_between (next_day (mkdate 2028 2 29)) (mkdate 2028 1 1)
  = (days_between (mkdate 2028 2 29) (mkdate 2028 1 1) + 1)%Z
  /\ days_between (mkdate 2028 2 29) (mkdate 2028 2 29) = 0%Z.
Proof.
  apply (@days_between_counts_days (mkdate 2028 2 29) (mkdate 2028 1 1)).
  reflexivity.
Defined.

(* ------------------------------------------------------------------ *)
(** ** Requests without a session *)

(** X10. Without a logged-in user no task handler runs: list, add, edit,
    toggle, delete and logout all leave the store (and the session) as they
    are, flash the please-log-in error and redirect to the login page. *)
Theorem anonymous_requests_go_to_login :
  forall (now : clock) (method : http_method) (form : form_data)
         (task_id : Z) (username : option str) (db : database),
    let session := mksession None username in
    let bounce :=
      mkoutcome db
        [(Text (py "Please log in to access this page."), py "error")]
        (Redirect (py "login")) in
    index now session db = bounce
    /\ add_task now form session db = bounce
    /\ edit_task now method form task_id session db = bounce
    /\ toggle_task task_id session db = bounce
    /\ delete_task task_id session db = bounce
    /\ logout session
       = mkauth session
           [(Text (py "Please log in to access this page."), py "error")]
           (AuthRedirect (py "login")).
Proof. intros. repeat split. Qed.

(* ------------------------------------------------------------------ *)
(** ** Adding a task *)

Lemma next_id_fresh (ids : list Z) : ~ In (next_id ids) ids.
Proof.
  assert (H : forall x, In x ids -> (x <= fold_right Z.max 0 ids)%Z).
  { induction ids as [|y ids IH]; simpl; [tauto|].
    intros x [<- | Hx]; [lia | specialize (IH x Hx); lia]. }
  intros Hin. apply H in Hin. unfold next_id in Hin. lia.
Qed.

Lemma validated_title_present (today : date)
    (title description priority due_date : option str) :
  fst (validate_task_data today title description priority due_date) = true ->
  fst (validate_title title) = true
  /\ fst (validate_description description) = true
  /\ exists t, title = Some t.
Proof.
  rewrite validate_task_data_eq. cbn [fst]. rewrite !andb_true_iff.
  intros (((Ht & Hd) & _) & _). repeat split; try assumption.
  destruct title as [t|]; [eauto | discriminate].
Qed.

Lemma add_task_outcome :
  forall (now : clock) (form : form_data) (user_id : Z)
         (username : option str) (db : database),
    let out := add_task now form (mksession (Some user_id) username) db in
    users (db_after out) = users db
    /\ (db_after out = db
        \/ exists t,
             tasks (db_after out) = tasks db ++ [t]
             /\ flashed out
                = [(Text (py "Task added successfully!"), py "success")]
             /\ Task.user_id t = user_id
             /\ Task.completed t = false
             /\ Task.created_at t = utcnow now
             /\ ~ In (Task.id t) (map Task.id (tasks db))
             /\ Some (Task.title t) = get_safe_form_data form (py "title") None
             /\ fst (validate_title (Some (Task.title t))) = true
             /\ fst (validate_description (Task.description t)) = true
             /\ (form_get form (py "duration") = None -> Task.duration t = 0%Z)
             /\ (form_get form (py "status") = None
                 -> Task.status t = py "Not Started")).
Proof.
  intros now form user_id username db. cbv zeta.
  unfold add_task, login_required. cbn [session_user_id].
  set (title := get_safe_form_data form (py "title") None).
  set (description := get_safe_form_data form (py "description") None).
  set (priority := get_safe_form_data form (py "priority") _).
  set (due_date := get_safe_form_data form (py "due_date") None).
  pose proof (@validated_title_present (today now) title description priority
                due_date) as Hv.
  destruct (validate_task_data (today now) title description priority due_date)
    as [[|] errors]; cbn [negb fst] in *; [|simpl; auto].
  destruct (Hv eq_refl) as (Ht & Hdesc & t & Et). rewrite Et in *.
  destruct (form_duration form) as [duration|] eqn:Ed; [|simpl; auto].
  cbn [db_after users tasks flashed]. split; [reflexivity|]. right.
  eexists. split; [reflexivity|].
  cbn -[py next_id validate_title validate_description truthy].
  repeat split; try assumption.
  - apply next_id_fresh.
  - destruct (truthy description); [assumption | reflexivity].
  - intros E. unfold form_duration in Ed. rewrite E in Ed. cbn in Ed.
    congruence.
  - intros E. unfold form_get_or. rewrite E. reflexivity.
Qed.


(** X11. An add-task request of a logged-in user either leaves the store
    as it is, or appends exactly one task: owned by the session user, not
    completed, stamped with the request's time, with an id no other task
    has, its title the sanitized title field, which passes the title
    rules, its description passing the description rule, and with the
    defaults 0 and Not Started when the duration or status field is
    missing.  The accounts are never touched. *)
Theorem add_task_appends_owned_task :
  forall (now : clock) (form : form_data) (user_id : Z)
         (username : option str) (db : database),
    let out := add_task now form (mksession (Some user_id) username) db in
    users (db_after out) = users db
    /\ (db_after out = db
        \/ exists t,
             tasks (db_after out) = tasks db ++ [t]
             /\ flashed out
                = [(Text (py "Task added successfully!"), py "success")]
             /\ Task.user_id t = user_id
             /\ Task.completed t = false
             /\ Task.created_at t = utcnow now
             /\ ~ In (Task.id t) (map Task.id (tasks db))
             /\ Some (Task.title t) = get_safe_form_data form (py "title") None
             /\ fst (validate_title (Some (Task.title t))) = true
             /\ fst (validate_description (Task.description t)) = true
             /\ (form_get form (py "duration") = None -> Task.duration t = 0%Z)
             /\ (form_get form (py "status") = None
                 -> Task.status t = py "Not Started")).
Proof. exact add_task_outcome. Qed.

Lemma sanitize_input_blank (s : str) :
  Forall (fun c => isspace c = true) s -> sanitize_input (Some s) = None.
Proof.
  intros H. apply strip_empty_iff in H.
  unfold sanitize_input. rewrite H. reflexivity.
Qed.

(** X12. A title field that is missing or holds only whitespace is the
    same to add-task: nothing is created and the title-required error is
    the first message flashed. *)
Theorem add_task_blank_title :
  forall (now : clock) (form : form_data) (user_id : Z)
         (username : option str) (db : database),
    (form_get form (py "title") = None
     \/ exists s, form_get form (py "title") = Some s
                  /\ Forall (fun c => isspace c = true) s) ->
    let out := add_task now form (mksession (Some user_id) username) db in
    db_after out = db
    /\ hd_error (flashed out) = Some (Text msg_title_required, py "error").
Proof.
  intros now form user_id username db H. cbv zeta.
  assert (Et : get_safe_form_data form (py "title") None = None).
  { unfold get_safe_form_data, form_get_default.
    destruct H as [-> | (s & -> & Hs)];
      [reflexivity | apply sanitize_input_blank; exact Hs]. }
  unfold add_task, login_required. cbn [session_user_id].
  rewrite Et, validate_task_data_eq.
  change (validate_title None) with (false, [msg_title_required]).
  cbn [fst snd andb negb db_after flashed]. split; reflexivity.
Qed.

Lemma add_task_blank_title_witness :
  let form : form_data := [(py "title", py "   "); (py "priority", py "Low")] in
  let out := add_task (mkclock (mkdate 2026 11 3) 5) form
               (mksession (Some 1%Z) None) (mkdb [] []) in
  db_after out = mkdb [] []
  /\ hd_error (flashed out) = Some (Text msg_title_required, py "error").
Proof.
  intros form out.
  apply (@add_task_blank_title (mkclock (mkdate 2026 11 3) 5) form 1 None
           (mkdb [] [])).
  right. exists (py "   "). split; [reflexivity|].
  repeat constructor.
Defined.

(* ------------------------------------------------------------------ *)
(** ** Accepted registrations and logging in *)

Lemma extended_nil (c : bool) (l : list str) (m : str) :
  (if c then l ++ [m] else l) = [] -> c = false /\ l = [].
Proof.
  destruct c; [intros H; apply app_eq_nil in H as (_ & H); discriminate|].
  auto.
Qed.

Lemma flash_errors_are_texts (errors : list str) (f : flash) :
  In f (flash_errors errors) -> exists e, f = (Text e, py "error").
Proof.
  unfold flash_errors. rewrite in_map_iff. intros (e & <- & _). eauto.
Qed.

(** A registration submission either re-shows the form with validation
    messages and no new row, or passes every check and adds the row. *)
Lemma register_outcome :
  forall (hash : str -> str) (now : clock) (session : session_data)
         (form : form_data) (db : database),
    session_user_id session = None ->
    let out := register hash now session POST form db in
    (db_after out = db /\ resp out = RenderRegister
     /\ exists errors, errors <> [] /\ flashed out = flash_errors errors)
    \/ (exists u e p,
          get_safe_form_data form (py "username") None = Some u
          /\ get_safe_form_data form (py "email") None = Some e
          /\ form_get form (py "password") = Some p
          /\ form_get form (py "confirm_password") = Some p
          /\ 3 <= length u /\ In "@"%char e /\ 6 <= length p
          /\ user_by_username (Some u) db = None
          /\ user_by_email (Some e) db = None
          /\ out
             = mkoutcome
                 (mkdb (users db
                        ++ [User.mk (next_id (map User.id (users db))) u e
                              (hash p) (utcnow now)])
                    (tasks db))
                 [(Text (py "Registration successful! Please log in."),
                   py "success")]
                 (Redirect (py "login"))).
Proof.
  intros hash now session form db Hs. unfold register. rewrite Hs.
  cbv zeta.
  set (username := get_safe_form_data form (py "username") None).
  set (email := get_safe_form_data form (py "email") None).
  set (password := form_get form (py "password")).
  set (confirm := form_get form (py "confirm_password")).
  set (e4 := if negb (opt_str_eqb _ _) then _ else _).
  assert (Hrej : forall errors : list str,
             errors <> [] ->
             let out := match errors with
                        | [] => mkoutcome db [] RenderRegister
                        | _ :: _ =>
                            mkoutcome db (flash_errors errors) RenderRegister
                        end in
             db_after out = db /\ resp out = RenderRegister
             /\ exists errors', errors' <> [] /\
                                flashed out = flash_errors errors').
  { intros [|x l] Hl; [congruence|]. cbv zeta. cbn [db_after resp flashed].
    repeat split. exists (x :: l). split; [discriminate | reflexivity]. }
  destruct (user_by_username username db) eqn:Hu.
  { left. destruct (user_by_email email db); snoc_branch;
      cbn [db_after resp flashed]; repeat split;
      eexists; (split; [|reflexivity]); apply snoc_not_nil. }
  destruct (user_by_email email db) eqn:He.
  { left. snoc_branch. cbn [db_after resp flashed]. repeat split.
    eexists; (split; [|reflexivity]); apply snoc_not_nil. }
  destruct e4 as [|x l] eqn:E4; [|left; apply (Hrej (x :: l)); discriminate].
  subst e4.
  apply extended_nil in E4 as (C4 & E3). apply extended_nil in E3 as (C3 & E2).
  apply extended_nil in E2 as (C2 & E1). apply extended_nil in E1 as (C1 & _).
  apply negb_false_iff in C4.
  apply orb_false_iff in C1 as (T1 & L1), C2 as (T2 & L2), C3 as (T3 & L3).
  apply negb_false_iff in T1, T2, T3, L2.
  destruct username as [u|]; [|discriminate].
  destruct email as [e|]; [|discriminate].
  destruct password as [p|]; [|discriminate].
  destruct confirm as [p'|]; [|discriminate].
  apply str_eqb_spec in C4. subst p'.
  right. exists u, e, p. cbn [str_of] in *.
  apply Nat.ltb_ge in L1, L3.
  repeat split; try assumption.
  unfold contains_char in L2. apply existsb_exists in L2 as (x & Hx & Ex).
  apply Ascii.eqb_eq in Ex. subst x. exact Hx.
Qed.

(** X13. An account is only ever created from a submission with a
    username of at least 3 characters, an email containing an at sign, a
    password of at least 6 characters equal to its confirmation, and a
    username and email no account has; the row stores the sanitized username
    and email and the hash of the password, never the password. *)
Theorem register_creates_only_checked_accounts :
  forall (hash : str -> str) (now : clock) (session : session_data)
         (method : http_method) (form : form_data) (db : database),
    db_after (register hash now session method form db) <> db ->
    exists u e p,
      get_safe_form_data form (py "username") None = Some u
      /\ get_safe_form_data form (py "email") None = Some e
      /\ form_get form (py "password") = Some p
      /\ form_get form (py "confirm_password") = Some p
      /\ 3 <= length u /\ In "@"%char e /\ 6 <= length p
      /\ ~ In u (map User.username (users db))
      /\ ~ In e (map User.email (users db))
      /\ db_after (register hash now session method form db)
         = mkdb (users db
                 ++ [User.mk (next_id (map User.id (users db))) u e (hash p)
                       (utcnow now)])
             (tasks db).
Proof.
  intros hash now session method form db Hch.
  destruct (session_user_id session) eqn:Hs.
  { exfalso. apply Hch. unfold register. rewrite Hs. reflexivity. }
  destruct method.
  { exfalso. apply Hch. unfold register. rewrite Hs. reflexivity. }
  destruct (register_outcome hash now session form db Hs)
    as [(E & _) | (u & e & p & H)]; [contradiction|].
  exists u, e, p.
  destruct H as (H1 & H2 & H3 & H4 & H5 & H6 & H7 & H8 & H9 & ->).
  repeat split; try assumption.
  - apply user_by_username_fresh; assumption.
  - apply user_by_email_fresh; assumption.
Qed.

Lemma register_creates_only_checked_accounts_witness :
  let form : form_data :=
    [(py "username", py " carol "); (py "email", py "carol@example.org");
     (py "password", py "secret1"); (py "confirm_password", py "secret1")] in
  exists u e p,
    get_safe_form_data form (py "username") None = Some u
    /\ get_safe_form_data form (py "email") None = Some e
    /\ form_get form (py "password") = Some p
    /\ form_get form (py "confirm_password") = Some p
    /\ 3 <= length u /\ In "@"%char e /\ 6 <= length p
    /\ ~ In u (map User.username (users (mkdb [] [])))
    /\ ~ In e (map User.email (users (mkdb [] [])))
    /\ db_after (register (fun p => py "h:" ++ p)
                   (mkclock (mkdate 2026 11 3) 5) (mksession None None) POST
                   form (mkdb [] []))
       = mkdb (users (mkdb [] [])
               ++ [User.mk (next_id (map User.id (users (mkdb [] [])))) u e
                     (py "h:" ++ p) 5])
           (tasks (mkdb [] [])).
Proof.
  intros form.
  apply (@register_creates_only_checked_accounts (fun p => py "h:" ++ p)
           (mkclock (mkdate 2026 11 3) 5) (mksession None None) POST form
           (mkdb [] [])).
  vm_compute. discriminate.
Defined.

Lemma user_by_username_new (name : str) (new_user : User.row)
    (db : database) :
  user_by_username (Some name) db = None ->
  User.username new_user = name ->
  user_by_username (Some name) (mkdb (users db ++ [new_user]) (tasks db))
  = Some new_user.
Proof.
  unfold user_by_username. cbn [users]. intros Hnone Hname.
  induction (users db) as [|u l IH]; simpl in *.
  - rewrite Hname, str_eqb_refl. reflexivity.
  - destruct (str_eqb (User.username u) name); [discriminate|].
    apply IH; assumption.
Qed.

Section LoginFacts.

Variable check_password_hash : str -> option str -> exn + bool.

(** X14. A failed login says the same thing whether the username is
    unknown or the password is wrong: the session stays as it was, the one
    flashed message is the generic invalid-credentials error, and the login
    page is shown again. *)
Theorem login_failure_is_uniform :
  forall (username : option str) (form : form_data) (db : database),
    let session := mksession None username in
    let name := get_safe_form_data form (py "username") None in
    (user_by_username name db = None
     \/ exists user,
          user_by_username name db = Some user
          /\ check_password_hash (User.password_hash user)
               (form_get form (py "password")) = inr false) ->
    login check_password_hash session POST form db
    = mkauth session
        [(Text (py "Invalid username or password."), py "error")]
        RenderLogin.
Proof.
  intros username form db session name H.
  unfold login, session. cbn [session_user_id]. cbv zeta. fold name.
  destruct H as [-> | (user & -> & ->)]; reflexivity.
Qed.

(** X15. A login request only ever opens a session for an account of the
    store whose username is the sanitized username field and whose stored
    hash the library accepted for the submitted password; the session then
    carries that account's id and username. *)
Theorem login_opens_session_only_after_check :
  forall (username : option str) (method : http_method) (form : form_data)
         (db : database) (user_id : Z),
    session_user_id
      (session_after
         (login check_password_hash (mksession None username) method form db))
    = Some user_id ->
    exists user,
      In user (users db)
      /\ User.id user = user_id
      /\ Some (User.username user)
         = get_safe_form_data form (py "username") None
      /\ check_password_hash (User.password_hash user)
           (form_get form (py "password")) = inr true
      /\ session_after
           (login check_password_hash (mksession None username) method form db)
         = mksession (Some user_id) (Some (User.username user)).
Proof.
  intros username method form db user_id.
  unfold login. cbn [session_user_id].
  destruct method; [discriminate|]. cbv zeta.
  destruct (get_safe_form_data form (py "username") None) as [name|] eqn:En;
    [|discriminate].
  destruct (user_by_username (Some name) db) as [user|] eqn:Eu;
    [|discriminate].
  destruct (check_password_hash (User.password_hash user) _) as [e|[|]] eqn:Ec;
    try discriminate.
  cbn [session_after session_user_id]. intros H. injection H as <-.
  unfold user_by_username in Eu. apply find_some in Eu as (Hin & Hname).
  apply str_eqb_spec in Hname.
  exists user. repeat split; try assumption. congruence.
Qed.

End LoginFacts.

(** Bob's account exists; the password sent is not his. *)
Lemma login_failure_is_uniform_witness :
  let check := fun (h : str) (p : option str) =>
                 inr (opt_str_eqb (Some h) p) : exn + bool in
  let db := mkdb [User.mk 1 (py "bob") (py "bob@example.org")
                    (py "secret1") 0] [] in
  let form : form_data :=
    [(py "username", py "bob"); (py "password", py "guess")] in
  login check (mksession None None) POST form db
  = mkauth (mksession None None)
      [(Text (py "Invalid username or password."), py "error")] RenderLogin.
Proof.
  intros check db form.
  apply (@login_failure_is_uniform check None form db).
  right. eexists. split; reflexivity.
Defined.

Lemma login_opens_session_only_after_check_witness :
  let check := fun (h : str) (p : option str) =>
                 inr (opt_str_eqb (Some h) p) : exn + bool in
  let db := mkdb [User.mk 1 (py "bob") (py "bob@example.org")
                    (py "secret1") 0] [] in
  let form : form_data :=
    [(py "username", py " bob"); (py "password", py "secret1")] in
  exists user,
    In user (users db)
    /\ User.id user = 1%Z
    /\ Some (User.username user) = get_safe_form_data form (py "username") None
    /\ check (User.password_hash user) (form_get form (py "password"))
       = inr true
    /\ session_after (login check (mksession None None) POST form db)
       = mksession (Some 1%Z) (Some (User.username user)).
Proof.
  intros check db form.
  apply (@login_opens_session_only_after_check check None POST form db 1).
  reflexivity.
Defined.

(** X16. Registering and then logging in with the same form works: when
    the hashing library accepts the password it hashed, a registration
    that is accepted is followed by a login that opens the session of the
    new account, greets it by its username and goes to the list; logging
    out from there clears the session. *)
Theorem register_then_login :
  forall (hash : str -> str) (check : str -> option str -> exn + bool)
         (now : clock) (username : option str) (form : form_data)
         (db : database),
    (forall p, check (hash p) (Some p) = inr true) ->
    let session := mksession None username in
    let out := register hash now session POST form db in
    resp out = Redirect (py "login") ->
    exists user,
      users (db_after out) = users db ++ [user]
      /\ Some (User.username user)
         = get_safe_form_data form (py "username") None
      /\ login check session POST form (db_after out)
         = mkauth (mksession (Some (User.id user)) (Some (User.username user)))
             [(Text (py "Welcome back, " ++ User.username user ++ py "!"),
               py "success")]
             (AuthRedirect (py "index"))
      /\ logout (session_after (login check session POST form (db_after out)))
         = mkauth (mksession None None)
             [(Text (py "Goodbye, " ++ User.username user ++ py "!"),
               py "success")]
             (AuthRedirect (py "login")).
Proof.
  intros hash check now username form db Hcheck session out Hresp.
  destruct (register_outcome hash now session form db eq_refl)
    as [(_ & E & _) | (u & e & p & Hu & He & Hp & _ & _ & _ & _ & Fu & _ & E)].
  { fold out in E. rewrite E in Hresp. discriminate. }
  fold out in E. rewrite E. cbn [db_after users].
  eexists. split; [reflexivity|]. cbn [User.username User.id].
  split; [symmetry; exact Hu|].
  assert (El : login check session POST form
                 (mkdb (users db
                        ++ [User.mk (next_id (map User.id (users db))) u e
                              (hash p) (utcnow now)]) (tasks db))
               = mkauth
                   (mksession (Some (next_id (map User.id (users db))))
                      (Some u))
                   [(Text (py "Welcome back, " ++ u ++ py "!"), py "success")]
                   (AuthRedirect (py "index"))).
  { unfold login, session. cbn [session_user_id]. cbv zeta.
    rewrite Hu, Hp.
    rewrite user_by_username_new; [|exact Fu|reflexivity].
    cbn [User.password_hash User.id User.username].
    rewrite Hcheck. reflexivity. }
  rewrite El. split; reflexivity.
Qed.

Lemma register_then_login_witness :
  let hash := fun p : str => py "h:" ++ p in
  let check := fun (h : str) (p : option str) =>
                 inr (opt_str_eqb (Some h) (option_map hash p)) : exn + bool in
  let form : form_data :=
    [(py "username", py "carol"); (py "email", py "carol@example.org");
     (py "password", py "secret1"); (py "confirm_password", py "secret1")] in
  let db := mkdb [User.mk 1 (py "bob") (py "bob@example.org") (py "x") 0] [] in
  let out := register hash (mkclock (mkdate 2026 11 3) 5)
               (mksession None None) POST form db in
  exists user,
    users (db_after out) = users db ++ [user]
    /\ Some (User.username user) = get_safe_form_data form (py "username") None
    /\ login check (mksession None None) POST form (db_after out)
       = mkauth (mksession (Some (User.id user)) (Some (User.username user)))
           [(Text (py "Welcome back, " ++ User.username user ++ py "!"),
             py "success")]
           (AuthRedirect (py "index"))
    /\ logout (session_after
                 (login check (mksession None None) POST form (db_after out)))
       = mkauth (mksession None None)
           [(Text (py "Goodbye, " ++ User.username user ++ py "!"),
             py "success")]
           (AuthRedirect (py "login")).
Proof.
  intros hash check form db out.
  apply (@register_then_login hash check (mkclock (mkdate 2026 11 3) 5) None
           form db).
  - intros p. unfold check. cbn [option_map opt_str_eqb].
    rewrite str_eqb_refl. reflexivity.
  - reflexivity.
Defined.

(* ------------------------------------------------------------------ *)
(** ** Editing, toggling and deleting an owned task *)

Lemma same_id_same_row (l : list Task.row) (a b : Task.row) :
  NoDup (map Task.id l) -> In a l -> In b l -> Task.id a = Task.id b -> a = b.
Proof.
  induction l as [|r l IH]; simpl; [tauto|].
  intros Hnd. inversion Hnd as [|x xs Hx Hnd']; subst.
  intros [-> | Ha] [-> | Hb] E; auto.
  - exfalso. apply Hx. rewrite E. apply in_map; assumption.
  - exfalso. apply Hx. rewrite <- E. apply in_map; assumption.
Qed.

Lemma update_task_ids (t' : Task.row) (db : database) :
  map Task.id (tasks (update_task t' db)) = map Task.id (tasks db).
Proof.
  unfold update_task. cbn [tasks]. rewrite map_map. apply map_ext.
  intros r. destruct (Z.eqb_spec (Task.id r) (Task.id t')); congruence.
Qed.

(** What a POST to edit does to an owned task. *)
Lemma edit_task_effect :
  forall (now : clock) (method : http_method) (form : form_data) (task_id : Z)
         (session : session_data) (db : database),
    let out := edit_task now method form task_id session db in
    db_after out = db
    \/ exists user_id t t',
         session_user_id session = Some user_id
         /\ method = POST
         /\ task_by_id_and_owner task_id user_id db = Some t
         /\ db_after out = update_task t' db
         /\ flashed out
            = [(Text (py "Task updated successfully!"), py "success")]
         /\ Task.id t' = Task.id t
         /\ Task.user_id t' = Task.user_id t
         /\ Task.completed t' = Task.completed t
         /\ Task.created_at t' = Task.created_at t
         /\ Some (Task.title t') = get_safe_form_data form (py "title") None
         /\ fst (validate_title (Some (Task.title t'))) = true
         /\ fst (validate_description (Task.description t')) = true
         /\ (truthy (Task.due_date t') = true ->
             exists d, strptime_ymd (str_of (Task.due_date t')) = Some d).
Proof.
  intros now method form task_id session db. cbv zeta.
  unfold edit_task, login_required.
  destruct (session_user_id session) as [uid|]; [|left; reflexivity].
  destruct (task_by_id_and_owner task_id uid db) as [task|] eqn:Et;
    [|left; reflexivity].
  destruct method; [left; reflexivity|].
  set (title := get_safe_form_data form (py "title") None).
  set (description := get_safe_form_data form (py "description") None).
  set (priority := get_safe_form_data form (py "priority") _).
  set (due_date := get_safe_form_data form (py "due_date") None).
  pose proof (@validated_title_present (today now) title description priority
                due_date) as Hv.
  pose proof (@validated_task_due_date (today now) title description priority
                due_date) as Hd.
  destruct (validate_task_data (today now) title description priority due_date)
    as [[|] errors]; cbn [negb fst] in *; [|left; reflexivity].
  destruct (Hv eq_refl) as (Ht & Hdesc & t & E). rewrite E in *.
  destruct (form_duration form); [|left; reflexivity].
  right. exists uid, task. eexists.
  cbn [db_after flashed].
  do 2 (split; [reflexivity|]). split; [exact Et|].
  do 2 (split; [reflexivity|]).
  cbn -[py validate_title validate_description truthy str_of strptime_ymd].
  repeat split; auto.
Qed.

(** What toggling does to an owned task. *)
Lemma toggle_task_effect :
  forall (task_id user_id : Z) (username : option str) (db : database)
         (t : Task.row),
    task_by_id_and_owner task_id user_id db = Some t ->
    toggle_task task_id (mksession (Some user_id) username) db
    = mkoutcome
        (update_task (set_completed (negb (Task.completed t)) t) db)
        [(Text (py "Task "
                ++ (if negb (Task.completed t) then py "completed"
                    else py "reopened")
                ++ py " successfully!"), py "success")]
        (Redirect (py "index")).
Proof.
  intros task_id user_id username db t E.
  unfold toggle_task, login_required. cbn [session_user_id].
  rewrite E. reflexivity.
Qed.

Lemma lookup_after_update (task_id user_id : Z) (t t' : Task.row)
    (db : database) :
  NoDup (map Task.id (tasks db)) ->
  task_by_id_and_owner task_id user_id db = Some t ->
  Task.id t' = Task.id t -> Task.user_id t' = Task.user_id t ->
  task_by_id_and_owner task_id user_id (update_task t' db) = Some t'.
Proof.
  intros Hnd Hfind Hid Hown.
  destruct (task_by_id_and_owner_some _ _ _ Hfind) as (Hin & Htid & Hu).
  unfold task_by_id_and_owner, update_task in *. cbn [tasks].
  assert (Hrows : forall r, In r (tasks db) ->
                            (Task.id r =? Task.id t')%Z = true -> r = t).
  { intros r Hr E. apply Z.eqb_eq in E.
    apply (@same_id_same_row _ _ _ Hnd Hr Hin). congruence. }
  clear Hnd Hin.
  induction (tasks db) as [|r l IH]; simpl in *; [discriminate|].
  destruct (Z.eqb_spec (Task.id r) (Task.id t')) as [E|E].
  - rewrite Hid, Hown, Htid, Hu, !Z.eqb_refl. reflexivity.
  - assert (Hr : (Task.id r =? task_id)%Z = false).
    { apply Z.eqb_neq. congruence. }
    rewrite Hr in *. simpl in *. apply IH; auto.
Qed.

Lemma update_task_twice (t t' : Task.row) (db : database) :
  NoDup (map Task.id (tasks db)) -> In t (tasks db) ->
  Task.id t' = Task.id t ->
  update_task t (update_task t' db) = db.
Proof.
  intros Hnd Hin Hid. destruct db as [us ts]. unfold update_task.
  cbn [users tasks] in *. f_equal. rewrite map_map.
  rewrite <- (map_id ts) at 2. apply map_ext_in. intros r Hr.
  destruct (Z.eqb_spec (Task.id r) (Task.id t')) as [E|E].
  - rewrite Hid, Z.eqb_refl. symmetry.
    apply (@same_id_same_row _ _ _ Hnd Hr Hin). congruence.
  - destruct (Z.eqb_spec (Task.id r) (Task.id t)); congruence.
Qed.

Lemma set_completed_back (t : Task.row) :
  set_completed (negb (Task.completed (set_completed
                                         (negb (Task.completed t)) t)))
    (set_completed (negb (Task.completed t)) t) = t.
Proof. destruct t. cbn. rewrite negb_involutive. reflexivity. Qed.

(** X17. Toggling an owned task twice gives back the store it started
    from, when task ids are unique: the first request flips the completed
    flag of that one row, the second flips it back. *)
Theorem toggle_task_twice :
  forall (task_id user_id : Z) (username : option str) (db : database)
         (t : Task.row),
    NoDup (map Task.id (tasks db)) ->
    task_by_id_and_owner task_id user_id db = Some t ->
    let session := mksession (Some user_id) username in
    let once := db_after (toggle_task task_id session db) in
    task_by_id_and_owner task_id user_id once
    = Some (set_completed (negb (Task.completed t)) t)
    /\ db_after (toggle_task task_id session once) = db.
Proof.
  intros task_id user_id username db t Hnd Hfind session once.
  unfold once, session. rewrite (toggle_task_effect task_id user_id username db Hfind).
  cbn [db_after].
  set (t1 := set_completed (negb (Task.completed t)) t).
  assert (Hl : task_by_id_and_owner task_id user_id (update_task t1 db)
               = Some t1).
  { apply lookup_after_update with t; auto; destruct t; reflexivity. }
  split; [exact Hl|].
  rewrite (toggle_task_effect task_id user_id username _ Hl). cbn [db_after].
  unfold t1. rewrite set_completed_back.
  apply update_task_twice; auto.
  apply (task_by_id_and_owner_some _ _ _ Hfind).
Qed.

Lemma toggle_task_twice_witness :
  let shop := Task.mk 1 (py "Shop") None None None (py "Not Started") 0 false
                100 1 in
  let rent := Task.mk 2 (py "Pay rent") None None None (py "Not Started") 0
                true 200 2 in
  let db := mkdb [] [shop; rent] in
  let once := db_after (toggle_task 1 (mksession (Some 1%Z) None) db) in
  task_by_id_and_owner 1 1 once
  = Some (set_completed (negb (Task.completed shop)) shop)
  /\ db_after (toggle_task 1 (mksession (Some 1%Z) None) once) = db.
Proof.
  intros shop rent db once.
  apply (@toggle_task_twice 1 1 None db shop).
  - repeat constructor; simpl; intuition discriminate.
  - reflexivity.
Defined.

(** X18. Deleting an owned task removes exactly the rows with its id and
    nothing else, and the id is then gone for its owner: a second delete,
    a toggle or an edit of it ends as not found. *)
Theorem delete_task_removes_task :
  forall (now : clock) (method : http_method) (form : form_data)
         (task_id user_id : Z) (username : option str) (db : database)
         (t : Task.row),
    task_by_id_and_owner task_id user_id db = Some t ->
    let session := mksession (Some user_id) username in
    let out := delete_task task_id session db in
    users (db_after out) = users db
    /\ (forall r, In r (tasks (db_after out))
                  <-> In r (tasks db) /\ Task.id r <> task_id)
    /\ flashed out = [(Text (py "Task deleted successfully!"), py "success")]
    /\ delete_task task_id session (db_after out)
       = caught_to_index (db_after out) (py "Error deleting task: ") NotFound
    /\ toggle_task task_id session (db_after out)
       = caught_to_index (db_after out) (py "Error toggling task: ") NotFound
    /\ edit_task now method form task_id session (db_after out)
       = caught_to_index (db_after out) (py "Error updating task: ") NotFound.
Proof.
  intros now method form task_id user_id username db t Hfind session out.
  destruct (task_by_id_and_owner_some _ _ _ Hfind) as (Hin & Hid & Hu).
  assert (Eout : out = mkoutcome (delete_row t db)
                         [(Text (py "Task deleted successfully!"),
                           py "success")] (Redirect (py "index"))).
  { unfold out, delete_task, login_required, session.
    cbn [session_user_id]. rewrite Hfind. reflexivity. }
  rewrite Eout. cbn [db_after flashed].
  assert (Hrows : forall r, In r (tasks (delete_row t db))
                            <-> In r (tasks db) /\ Task.id r <> task_id).
  { intros r. unfold delete_row. cbn [tasks].
    rewrite filter_In, negb_true_iff, Z.eqb_neq, Hid. reflexivity. }
  assert (Hgone : task_by_id_and_owner task_id user_id (delete_row t db)
                  = None).
  { apply task_by_id_and_owner_none. intros r Hr E.
    apply Hrows in Hr. tauto. }
  split; [reflexivity|]. split; [exact Hrows|]. split; [reflexivity|].
  unfold delete_task, toggle_task, edit_task, login_required, session.
  cbn [session_user_id]. rewrite Hgone. repeat split.
Qed.

Lemma delete_task_removes_task_witness :
  let shop := Task.mk 1 (py "Shop") None None None (py "Not Started") 0 false
                100 1 in
  let rent := Task.mk 2 (py "Pay rent") None None None (py "Not Started") 0
                true 200 2 in
  let db := mkdb [] [shop; rent] in
  let session := mksession (Some 1%Z) None in
  let out := delete_task 1 session db in
  users (db_after out) = users db
  /\ (forall r, In r (tasks (db_after out))
                <-> In r (tasks db) /\ Task.id r <> 1%Z)
  /\ flashed out = [(Text (py "Task deleted successfully!"), py "success")]
  /\ delete_task 1 session (db_after out)
     = caught_to_index (db_after out) (py "Error deleting task: ") NotFound
  /\ toggle_task 1 session (db_after out)
     = caught_to_index (db_after out) (py "Error toggling task: ") NotFound
  /\ edit_task (mkclock (mkdate 2026 11 3) 5) POST [] 1 session (db_after out)
     = caught_to_index (db_after out) (py "Error updating task: ") NotFound.
Proof.
  intros shop rent db session out.
  apply (@delete_task_removes_task (mkclock (mkdate 2026 11 3) 5) POST [] 1 1
           None db shop).
  reflexivity.
Defined.

(** X19. An accepted edit rewrites only the owned task: the new row keeps
    the id, the owner, the completed flag and the creation time, takes the
    sanitized title, which passes the title rules, and every row with
    another id stays as it was; the accounts are not touched.  Any other
    edit request leaves the store as it is. *)
Theorem edit_task_rewrites_one_task :
  forall (now : clock) (method : http_method) (form : form_data)
         (task_id user_id : Z) (username : option str) (db : database),
    let out := edit_task now method form task_id
                 (mksession (Some user_id) username) db in
    db_after out = db
    \/ exists t t',
         task_by_id_and_owner task_id user_id db = Some t
         /\ users (db_after out) = users db
         /\ (forall r, In r (tasks (db_after out))
                       <-> r = t' \/ (In r (tasks db) /\ Task.id r <> task_id))
         /\ Task.id t' = task_id
         /\ Task.user_id t' = user_id
         /\ Task.completed t' = Task.completed t
         /\ Task.created_at t' = Task.created_at t
         /\ Some (Task.title t') = get_safe_form_data form (py "title") None
         /\ fst (validate_title (Some (Task.title t'))) = true.
Proof.
  intros now method form task_id user_id username db. cbv zeta.
  destruct (edit_task_effect now method form task_id
              (mksession (Some user_id) username) db)
    as [E | (uid & t & t' & Hs & _ & Hfind & E & _ & Hid & Hown & Hc & Hcr
             & Htitle & Hvalid & _)]; [left; exact E|].
  cbn [session_user_id] in Hs. injection Hs as <-.
  destruct (task_by_id_and_owner_some _ _ _ Hfind) as (Hin & Htid & Hu).
  right. exists t, t'. rewrite E.
  split; [exact Hfind|]. split; [reflexivity|].
  split; [|repeat split; congruence].
  intros r. unfold update_task. cbn [tasks]. rewrite in_map_iff. split.
  - intros (r0 & Er & Hr0).
    destruct (Z.eqb_spec (Task.id r0) (Task.id t')); subst; auto.
    right. split; [assumption | congruence].
  - intros [-> | (Hr & Hne)].
    + exists t. rewrite Hid, Z.eqb_refl. auto.
    + exists r. split; [|assumption].
      destruct (Z.eqb_spec (Task.id r) (Task.id t')); congruence.
Qed.

(* ------------------------------------------------------------------ *)
(** ** Other users' tasks *)

Lemma filter_map_same (A : Type) (f : A -> bool) (g : A -> A) (l : list A) :
  (forall r, In r l -> g r = r \/ (f (g r) = false /\ f r = false)) ->
  filter f (map g l) = filter f l.
Proof.
  induction l as [|r l IH]; intros H; simpl; [reflexivity|].
  rewrite IH by (intros; apply H; simpl; auto).
  destruct (H r (or_introl eq_refl)) as [-> | (-> & ->)]; reflexivity.
Qed.

Lemma filter_filter_same (A : Type) (f h : A -> bool) (l : list A) :
  (forall r, In r l -> h r = false -> f r = false) ->
  filter f (filter h l) = filter f l.
Proof.
  induction l as [|r l IH]; intros H; simpl; [reflexivity|].
  specialize (IH (fun x Hx => H x (or_intror Hx))).
  destruct (h r) eqn:Eh; simpl; rewrite IH; [reflexivity|].
  rewrite (H r (or_introl eq_refl) Eh). reflexivity.
Qed.

Lemma tasks_of_update_task (other : Z) (t t' : Task.row) (db : database) :
  NoDup (map Task.id (tasks db)) -> In t (tasks db) ->
  Task.id t' = Task.id t ->
  Task.user_id t <> other -> Task.user_id t' <> other ->
  tasks_of other (update_task t' db) = tasks_of other db.
Proof.
  intros Hnd Hin Hid Ht Ht'. unfold tasks_of, update_task. cbn [tasks].
  apply filter_map_same. intros r Hr.
  destruct (Z.eqb_spec (Task.id r) (Task.id t')) as [E|E]; [right|left; auto].
  assert (r = t) by (apply (@same_id_same_row _ _ _ Hnd Hr Hin); congruence).
  subst r. split; apply Z.eqb_neq; assumption.
Qed.

Lemma tasks_of_delete_row (other : Z) (t : Task.row) (db : database) :
  NoDup (map Task.id (tasks db)) -> In t (tasks db) ->
  Task.user_id t <> other ->
  tasks_of other (delete_row t db) = tasks_of other db.
Proof.
  intros Hnd Hin Ht. unfold tasks_of, delete_row. cbn [tasks].
  apply filter_filter_same. intros r Hr E.
  apply negb_false_iff, Z.eqb_eq in E.
  assert (r = t) by (apply (@same_id_same_row _ _ _ Hnd Hr Hin); congruence).
  subst r. apply Z.eqb_neq; assumption.
Qed.

(** X20. No request touches the tasks of anyone but the session user: when
    task ids are unique, the task list of every other user is the same
    after the request as before, whatever the request is. *)
Theorem other_users_tasks_untouched :
  forall (hash : str -> str) (now : clock) (session : session_data)
         (r : request) (db : database) (other : Z),
    NoDup (map Task.id (tasks db)) ->
    session_user_id session <> Some other ->
    tasks_of other (db_after (handle hash now session r db))
    = tasks_of other db.
Proof.
  intros hash now session r db other Hnd Hs.
  destruct r as [method form| |form|method form task_id|task_id|task_id];
    cbn [handle].
  - destruct (register_effect hash now session method form db) as (E & _).
    unfold tasks_of. rewrite E. reflexivity.
  - rewrite index_keeps_store. reflexivity.
  - destruct (add_task_effect now form session db)
      as (_ & [-> | (t & E & Hown & _)]); [reflexivity|].
    unfold tasks_of. rewrite E, filter_app. simpl.
    destruct (Z.eqb_spec (Task.user_id t) other) as [Eo|_];
      [|apply app_nil_r].
    exfalso. apply Hs. congruence.
  - destruct (edit_task_effect now method form task_id session db)
      as [-> | (uid & t & t' & Hsu & _ & Hfind & -> & _ & Hid & Hown & _)];
      [reflexivity|].
    destruct (task_by_id_and_owner_some _ _ _ Hfind) as (Hin & _ & Hu).
    apply tasks_of_update_task with t; auto; congruence.
  - unfold toggle_task, login_required.
    destruct (session_user_id session) as [uid|]; [|reflexivity].
    destruct (task_by_id_and_owner task_id uid db) as [t|] eqn:Hfind;
      [|reflexivity].
    destruct (task_by_id_and_owner_some _ _ _ Hfind) as (Hin & _ & Hu).
    cbn [db_after].
    apply tasks_of_update_task with t; auto;
      destruct t; cbn in *; congruence.
  - unfold delete_task, login_required.
    destruct (session_user_id session) as [uid|]; [|reflexivity].
    destruct (task_by_id_and_owner task_id uid db) as [t|] eqn:Hfind;
      [|reflexivity].
    destruct (task_by_id_and_owner_some _ _ _ Hfind) as (Hin & _ & Hu).
    cbn [db_after]. apply tasks_of_delete_row; auto. congruence.
Qed.

(** Alice and Bob each have a task titled Shop; Alice deletes hers. *)
Lemma other_users_tasks_untouched_witness :
  let hers := Task.mk 1 (py "Shop") None None None (py "Not Started") 0 false
                100 1 in
  let his := Task.mk 2 (py "Shop") None None None (py "Not Started") 0 false
               200 2 in
  tasks_of 2 (db_after (handle (fun p => p) (mkclock (mkdate 2026 11 3) 5)
                          (mksession (Some 1%Z) None) (DeleteTask 1)
                          (mkdb [] [hers; his])))
  = tasks_of 2 (mkdb [] [hers; his]).
Proof.
  intros hers his.
  apply (@other_users_tasks_untouched (fun p => p)
           (mkclock (mkdate 2026 11 3) 5) (mksession (Some 1%Z) None)
           (DeleteTask 1) (mkdb [] [hers; his]) 2).
  - repeat constructor; simpl; intuition discriminate.
  - discriminate.
Defined.

(* ------------------------------------------------------------------ *)
(** ** What the handlers never raise *)

Lemma validated_title_some (today : date)
    (title description priority due_date : option str) (errors : list str) :
  validate_task_data today title description priority due_date
  = (true, errors) ->
  exists t, title = Some t.
Proof.
  intros E.
  destruct (@validated_title_present today title description priority
              due_date) as (_ & _ & H); [rewrite E; reflexivity | exact H].
Qed.

(** X21. No request runs into the NOT NULL constraint of a column: the
    validation in front of every insert and update guarantees the username,
    email, password and title are present, so the integrity-error branch of
    a handler is never the one taken. *)
Theorem no_integrity_error :
  forall (hash : str -> str) (now : clock) (session : session_data)
         (r : request) (db : database) (prefix category : str),
    ~ In (Caught prefix IntegrityError, category)
        (flashed (handle hash now session r db)).
Proof.
  intros hash now session r db prefix category.
  destruct r as [method form| |form|method form task_id|task_id|task_id];
    cbn [handle].
  - destruct (session_user_id session) eqn:Hs;
      [unfold register; rewrite Hs; simpl; tauto|].
    destruct method; [unfold register; rewrite Hs; simpl; tauto|].
    destruct (register_outcome hash now session form db Hs)
      as [(_ & _ & errors & _ & ->) | (u & e & p & H)].
    + intros H. apply flash_errors_are_texts in H as (x & H). discriminate.
    + destruct H as (_ & _ & _ & _ & _ & _ & _ & _ & _ & ->).
      simpl. intuition discriminate.
  - unfold index, login_required.
    destruct (session_user_id session); [|simpl; intuition discriminate].
    cbv zeta. destruct (annotate_all _ _); simpl; tauto.
  - unfold add_task, login_required.
    destruct (session_user_id session); [|simpl; intuition discriminate].
    destruct (validate_task_data _ _ _ _ _) as [[|] errors] eqn:Ev;
      cbn [negb flashed].
    + apply validated_title_some in Ev as (t & ->).
      destruct (form_duration form); simpl; intuition discriminate.
    + intros H. apply flash_errors_are_texts in H as (x & H). discriminate.
  - unfold edit_task, login_required.
    destruct (session_user_id session); [|simpl; intuition discriminate].
    destruct (task_by_id_and_owner _ _ _); [|simpl; intuition discriminate].
    destruct method; [simpl; tauto|].
    destruct (validate_task_data _ _ _ _ _) as [[|] errors] eqn:Ev;
      cbn [negb flashed].
    + apply validated_title_some in Ev as (t & ->).
      destruct (form_duration form); simpl; intuition discriminate.
    + intros H. apply flash_errors_are_texts in H as (x & H). discriminate.
  - unfold toggle_task, login_required.
    destruct (session_user_id session); [|simpl; intuition discriminate].
    destruct (task_by_id_and_owner _ _ _); simpl; intuition discriminate.
  - unfold delete_task, login_required.
    destruct (session_user_id session); [|simpl; intuition discriminate].
    destruct (task_by_id_and_owner _ _ _); simpl; intuition discriminate.
Qed.

(* ------------------------------------------------------------------ *)
(** ** More invariants of the reachable stores *)

Lemma delete_row_ids (t : Task.row) (db : database) :
  NoDup (map Task.id (tasks db)) ->
  NoDup (map Task.id (tasks (delete_row t db))).
Proof.
  unfold delete_row. cbn [tasks]. intros H.
  replace (map Task.id
             (filter (fun r => negb (Task.id r =? Task.id t)%Z) (tasks db)))
    with (filter (fun i => negb (i =? Task.id t)%Z) (map Task.id (tasks db))).
  - apply NoDup_filter; assumption.
  - clear H. induction (tasks db) as [|r l IH]; simpl; [reflexivity|].
    destruct (negb (Task.id r =? Task.id t)%Z); simpl; congruence.
Qed.

Lemma task_handlers_keep_ids :
  forall (now : clock) (method : http_method) (form : form_data) (task_id : Z)
         (session : session_data) (db : database),
    NoDup (map Task.id (tasks db)) ->
    NoDup (map Task.id
             (tasks (db_after (edit_task now method form task_id session db))))
    /\ NoDup (map Task.id (tasks (db_after (toggle_task task_id session db))))
    /\ NoDup (map Task.id (tasks (db_after (delete_task task_id session db)))).
Proof.
  intros now method form task_id session db Hnd. split; [|split].
  - destruct (edit_task_effect now method form task_id session db)
      as [-> | (uid & t & t' & _ & _ & _ & -> & _)]; [assumption|].
    rewrite update_task_ids. assumption.
  - unfold toggle_task, login_required.
    destruct (session_user_id session) as [uid|]; [|assumption].
    destruct (task_by_id_and_owner task_id uid db); [|assumption].
    cbn [db_after]. rewrite update_task_ids. assumption.
  - unfold delete_task, login_required.
    destruct (session_user_id session) as [uid|]; [|assumption].
    destruct (task_by_id_and_owner task_id uid db); [|assumption].
    cbn [db_after]. apply delete_row_ids. assumption.
Qed.

Lemma register_user_ids :
  forall (hash : str -> str) (now : clock) (session : session_data)
         (method : http_method) (form : form_data) (db : database),
    NoDup (map User.id (users db)) ->
    NoDup (map User.id
             (users (db_after (register hash now session method form db)))).
Proof.
  intros hash now session method form db Hnd.
  destruct (session_user_id session) eqn:Hs;
    [unfold register; rewrite Hs; assumption|].
  destruct method; [unfold register; rewrite Hs; assumption|].
  destruct (register_outcome hash now session form db Hs)
    as [(-> & _) | (u & e & p & H)]; [assumption|].
  destruct H as (_ & _ & _ & _ & _ & _ & _ & _ & _ & ->).
  cbn [db_after users]. rewrite map_app. simpl.
  apply NoDup_snoc; [assumption | apply next_id_fresh].
Qed.

Lemma reachable_unique_ids (hash : str -> str) (db : database) :
  reachable hash db -> unique_ids db.
Proof.
  induction 1 as [|db now session r _ (IHu & IHt)].
  - split; constructor.
  - destruct r as [method form| |form|method form task_id|task_id|task_id];
      cbn [handle]; split.
    + apply register_user_ids; assumption.
    + destruct (register_effect hash now session method form db) as (E & _).
      rewrite E. assumption.
    + rewrite index_keeps_store. assumption.
    + rewrite index_keeps_store. assumption.
    + destruct (add_task_effect now form session db) as (E & _).
      rewrite E. assumption.
    + unfold add_task, login_required.
      destruct (session_user_id session) as [uid|]; [|assumption].
      destruct (add_task_outcome now form uid None db)
        as (_ & [E | (t & E & _ & _ & _ & _ & Hfresh & _)]).
      * unfold add_task, login_required in E. cbn [session_user_id] in E.
        rewrite E. assumption.
      * unfold add_task, login_required in E. cbn [session_user_id] in E.
        rewrite E, map_app. simpl. apply NoDup_snoc; assumption.
    + destruct (task_handlers_keep_users now method form task_id session db)
        as (E & _). rewrite E. assumption.
    + apply (proj1 (task_handlers_keep_ids now method form task_id session db IHt)).
    + destruct (task_handlers_keep_users now GET [] task_id session db)
        as (_ & E & _). rewrite E. assumption.
    + apply (proj1 (proj2 (task_handlers_keep_ids now GET [] task_id session db IHt))).
    + destruct (task_handlers_keep_users now GET [] task_id session db)
        as (_ & _ & E). rewrite E. assumption.
    + apply (proj2 (proj2 (task_handlers_keep_ids now GET [] task_id session db IHt))).
Qed.

Lemma reachable_fields_valid (hash : str -> str) (db : database) :
  reachable hash db -> fields_valid db.
Proof.
  induction 1 as [|db now session rq _ IH].
  - intros t [].
  - destruct rq as [method form| |form|method form task_id|task_id|task_id];
      cbn [handle].
    + destruct (register_effect hash now session method form db) as (E & _).
      intros t. rewrite E. apply IH.
    + rewrite index_keeps_store. exact IH.
    + unfold add_task, login_required.
      destruct (session_user_id session) as [uid|]; [|exact IH].
      destruct (add_task_outcome now form uid None db)
        as (_ & [E | (t & E & _ & _ & _ & _ & _ & _ & Ht & Hd & _)]);
        unfold add_task, login_required in E; cbn [session_user_id] in E.
      * rewrite E. exact IH.
      * intros t'. rewrite E, in_app_iff.
        intros [Hin | [<- | []]]; [apply IH; assumption | auto].
    + destruct (edit_task_effect now method form task_id session db)
        as [-> | (uid & t & t' & _ & _ & _ & -> & _ & _ & _ & _ & _ & _ & Ht
                  & Hd & _)]; [exact IH|].
      intros r Hr. apply update_task_in in Hr as [-> | Hr]; auto.
    + unfold toggle_task, login_required.
      destruct (session_user_id session) as [uid|]; [|exact IH].
      destruct (task_by_id_and_owner task_id uid db) as [t|] eqn:E;
        [|exact IH].
      apply task_by_id_and_owner_some in E as (Hin & _).
      cbn [db_after]. intros r Hr.
      apply update_task_in in Hr as [-> | Hr]; [|apply IH; assumption].
      cbn [set_completed Task.title Task.description]. apply IH; assumption.
    + unfold delete_task, login_required.
      destruct (session_user_id session) as [uid|]; [|exact IH].
      destruct (task_by_id_and_owner task_id uid db) as [t|]; [|exact IH].
      cbn [db_after delete_row]. intros r Hr. cbn [tasks] in Hr.
      apply filter_In in Hr as (Hr & _). apply IH; assumption.
Qed.

(** X22. In every store the application reaches from empty tables,
    usernames, emails, account ids and task ids are each unique. *)
Theorem reachable_keys_unique :
  forall (hash : str -> str) (db : database),
    reachable hash db ->
    NoDup (map User.username (users db))
    /\ NoDup (map User.email (users db))
    /\ NoDup (map User.id (users db))
    /\ NoDup (map Task.id (tasks db)).
Proof.
  intros hash db H.
  destruct (reachable_unique_accounts H) as (H1 & H2).
  destruct (reachable_unique_ids H) as (H3 & H4). auto.
Qed.

(** X23. In every store the application reaches from empty tables, every
    task has a title that passes the title rules, a description that
    passes the description rule, and a due date that is absent or parses as
    a calendar date. *)
Theorem reachable_tasks_validated :
  forall (hash : str -> str) (db : database) (t : Task.row),
    reachable hash db -> In t (tasks db) ->
    fst (validate_title (Some (Task.title t))) = true
    /\ fst (validate_description (Task.description t)) = true
    /\ (truthy (Task.due_date t) = false
        \/ exists d, strptime_ymd (str_of (Task.due_date t)) = Some d
                     /\ valid_date d).
Proof.
  intros hash db t H Hin.
  destruct (reachable_fields_valid H t Hin) as (H1 & H2).
  split; [exact H1|]. split; [exact H2|].
  destruct (truthy (Task.due_date t)) eqn:Et; [right|left; reflexivity].
  destruct (reachable_due_dates_parse H t Hin Et) as (d & Hd).
  exists d. split; [exact Hd | exact (strptime_ymd_valid _ Hd)].
Qed.

Lemma example_store_reachable :
  reachable (fun p => py "h:" ++ p) example_store.
Proof. unfold example_store. do 2 apply reachable_step. constructor. Qed.

Example example_store_rows :
  example_store
  = mkdb [User.mk 1 (py "carol") (py "carol@example.org") (py "h:secret1") 10]
      [Task.mk 1 (py "Buy milk") None (Some (py "Low"))
         (Some (py "2026-11-10")) (py "Not Started") 0 false 20 1].
Proof. reflexivity. Qed.

Lemma reachable_keys_unique_witness :
  NoDup (map User.username (users example_store))
  /\ NoDup (map User.email (users example_store))
  /\ NoDup (map User.id (users example_store))
  /\ NoDup (map Task.id (tasks example_store)).
Proof.
  apply (@reachable_keys_unique (fun p => py "h:" ++ p) example_store).
  exact example_store_reachable.
Defined.

Lemma reachable_tasks_validated_witness :
  let t := Task.mk 1 (py "Buy milk") None (Some (py "Low"))
             (Some (py "2026-11-10")) (py "Not Started") 0 false 20 1 in
  fst (validate_title (Some (Task.title t))) = true
  /\ fst (validate_description (Task.description t)) = true
  /\ (truthy (Task.due_date t) = false
      \/ exists d, strptime_ymd (str_of (Task.due_date t)) = Some d
                   /\ valid_date d).
Proof.
  intros t.
  apply (@reachable_tasks_validated (fun p => py "h:" ++ p) example_store t).
  - exact example_store_reachable.
  - left. reflexivity.
Defined.

(* ------------------------------------------------------------------ *)
(** ** The duration field *)

Lemma digit_is_no_sign (c : ascii) :
  isdigit c = true ->
  Ascii.eqb c "_"%char = false /\ Ascii.eqb c "+"%char = false
  /\ Ascii.eqb c "-"%char = false /\ int_space c = false
  /\ (0 <= digit_val c <= 9)%Z.
Proof.
  unfold isdigit, in_range, digit_val, int_space, in_range.
  rewrite andb_true_iff, !N.leb_le. intros (Hlo & Hhi).
  assert (Hne : forall x, (57 < code x)%N -> Ascii.eqb c x = false).
  { intros x Hx. apply Ascii.eqb_neq. intros ->. lia. }
  assert (Hne' : forall x, (code x < 48)%N -> Ascii.eqb c x = false).
  { intros x Hx. apply Ascii.eqb_neq. intros ->. lia. }
  repeat split; try (apply Hne; vm_compute; reflexivity);
    try (apply Hne'; vm_compute; reflexivity); try lia.
  repeat (apply orb_false_iff; split);
    apply andb_false_iff; rewrite !N.leb_gt; lia.
Qed.

Lemma scan_digits_plain (s : str) :
  Forall (fun c => isdigit c = true) s -> s <> [] ->
  forall (acc : Z) (count : nat),
    (0 <= acc)%Z ->
    exists n, (0 <= n)%Z
              /\ scan_digits acc count s = Some (n, count + length s).
Proof.
  induction s as [|c s IH]; intros Hs Hne acc count Hacc; [congruence|].
  inversion Hs as [|x xs Hc Hrest]; subst.
  destruct (digit_is_no_sign c Hc) as (_ & _ & _ & _ & Hv).
  cbn [scan_digits]. rewrite Hc.
  destruct s as [|u r].
  - exists (10 * acc + digit_val c)%Z. split; [lia|].
    cbn [length]. rewrite Nat.add_1_r. reflexivity.
  - inversion Hrest as [|y ys Hu _]; subst.
    destruct (digit_is_no_sign u Hu) as (-> & _).
    destruct (IH Hrest ltac:(discriminate) (10 * acc + digit_val c)%Z
                (S count) ltac:(lia)) as (n & Hn & E).
    exists n. split; [exact Hn|]. rewrite E. f_equal. f_equal.
    cbn [length]. lia.
Qed.

Lemma drop_while_none (f : ascii -> bool) (s : str) :
  Forall (fun c => f c = false) s -> drop_while f s = s.
Proof. destruct 1 as [|c s Hc _]; simpl; [|rewrite Hc]; reflexivity. Qed.

Lemma int_strip_plain (s : str) :
  Forall (fun c => int_space c = false) s ->
  rev (drop_while int_space (rev (drop_while int_space s))) = s.
Proof.
  intros H. rewrite (drop_while_none _ H).
  rewrite drop_while_none by (apply Forall_rev; exact H).
  apply rev_involutive.
Qed.

Lemma py_int_digits (s : str) :
  Forall (fun c => isdigit c = true) s -> s <> [] ->
  length s <= int_max_str_digits ->
  exists n, (0 <= n)%Z
            /\ py_int s = Some n
            /\ py_int ("+"%char :: s) = Some n
            /\ py_int ("-"%char :: s) = Some (- n)%Z.
Proof.
  intros Hs Hne Hlen.
  destruct (@scan_digits_plain s Hs Hne 0%Z 0 ltac:(lia)) as (n & Hn & E).
  assert (Hu : int_unsigned s = Some n).
  { unfold int_unsigned. rewrite E. cbn [Nat.add].
    apply Nat.leb_le in Hlen. rewrite Hlen. reflexivity. }
  assert (Hsp : Forall (fun c => int_space c = false) s).
  { eapply Forall_impl; [|exact Hs]. intros c Hc.
    apply (digit_is_no_sign c Hc). }
  exists n. split; [exact Hn|]. unfold py_int.
  rewrite (int_strip_plain Hsp).
  rewrite (@int_strip_plain ("+"%char :: s)) by (constructor; auto).
  rewrite (@int_strip_plain ("-"%char :: s)) by (constructor; auto).
  cbn [Ascii.eqb Bool.eqb andb]. rewrite Hu.
  destruct s as [|c r]; [congruence|].
  inversion Hs as [|x xs Hc _]; subst.
  destruct (digit_is_no_sign c Hc) as (_ & -> & -> & _).
  rewrite Hu. repeat split.
Qed.

(** X24. The duration field: missing or empty it is read as 0; a run of up
    to 4300 digits is read as a non-negative number, and the same digits
    after a minus sign as its negative, so a negative duration is not
    refused. *)
Theorem form_duration_spec :
  forall form : form_data,
    (form_get form (py "duration") = None
     \/ form_get form (py "duration") = Some [] ->
     form_duration form = Some 0%Z)
    /\ (forall s : str,
          Forall (fun c => isdigit c = true) s -> s <> [] ->
          length s <= int_max_str_digits ->
          exists n, (0 <= n)%Z
                    /\ (form_get form (py "duration") = Some s ->
                        form_duration form = Some n)
                    /\ (form_get form (py "duration") = Some ("-"%char :: s) ->
                        form_duration form = Some (- n)%Z)).
Proof.
  intros form. split.
  - unfold form_duration. intros [-> | ->]; reflexivity.
  - intros s Hs Hne Hlen.
    destruct (py_int_digits Hs Hne Hlen) as (n & Hn & E & _ & Em).
    exists n. split; [exact Hn|]. unfold form_duration.
    split; intros ->; cbn [truthy str_of]; [|exact Em].
    destruct s; [congruence | exact E].
Qed.

Example form_duration_examples :
  form_duration [(py "duration", py "45")] = Some 45%Z
  /\ form_duration [(py "duration", py "-45")] = Some (-45)%Z
  /\ form_duration [(py "duration", py " 1_000 ")] = Some 1000%Z
  /\ form_duration [(py "duration", py "")] = Some 0%Z
  /\ form_duration [(py "title", py "x")] = Some 0%Z
  /\ form_duration [(py "duration", py "1.5")] = None
  /\ form_duration [(py "duration", py "abc")] = None
  /\ form_duration [(py "duration", py "1__0")] = None.
Proof. repeat split; reflexivity. Qed.

Lemma validate_task_data_flag (today : date)
    (title description priority due_date : option str) :
  flag_matches
    (validate_task_data today title description priority due_date).
Proof.
  pose proof (validate_title_flag title) as Ht.
  pose proof (validate_description_flag description) as Hd.
  pose proof (validate_priority_flag priority) as Hp.
  pose proof (validate_due_date_flag today due_date) as Hdd.
  unfold flag_matches in *. rewrite validate_task_data_eq. cbn [fst snd].
  rewrite !no_errors_app, Ht, Hd, Hp, Hdd, !andb_assoc. reflexivity.
Qed.

(** X25. A duration that [int] does not read stops add-task: whatever
    the other fields are, nothing is created, and the request ends either
    with the validation errors or with the handler's error message carrying
    the ValueError. *)
Theorem add_task_unreadable_duration :
  forall (now : clock) (form : form_data) (user_id : Z)
         (username : option str) (db : database),
    form_duration form = None ->
    let out := add_task now form (mksession (Some user_id) username) db in
    db_after out = db
    /\ resp out = Redirect (py "index")
    /\ (flashed out = [(Caught (py "Error adding task: ") ValueError,
                        py "error")]
        \/ exists errors, errors <> [] /\ flashed out = flash_errors errors).
Proof.
  intros now form user_id username db Hd. cbv zeta.
  unfold add_task, login_required. cbn [session_user_id].
  pose proof (validate_task_data_flag (today now)
                (get_safe_form_data form (py "title") None)
                (get_safe_form_data form (py "description") None)
                (get_safe_form_data form (py "priority") (Some (py "None")))
                (get_safe_form_data form (py "due_date") None)) as Hf.
  unfold flag_matches in Hf.
  destruct (validate_task_data _ _ _ _ _) as [[|] errors]; cbn [negb].
  - rewrite Hd. repeat split. left. reflexivity.
  - repeat split. right. exists errors. split; [|reflexivity].
    intros ->. discriminate Hf.
Qed.

Lemma add_task_unreadable_duration_witness :
  let form : form_data :=
    [(py "title", py "Buy milk"); (py "priority", py "Low");
     (py "duration", py "an hour")] in
  let out := add_task (mkclock (mkdate 2026 11 3) 5) form
               (mksession (Some 1%Z) None) (mkdb [] []) in
  db_after out = mkdb [] []
  /\ resp out = Redirect (py "index")
  /\ (flashed out = [(Caught (py "Error adding task: ") ValueError,
                      py "error")]
      \/ exists errors, errors <> [] /\ flashed out = flash_errors errors).
Proof.
  intros form out.
  apply (@add_task_unreadable_duration (mkclock (mkdate 2026 11 3) 5) form 1
           None (mkdb [] [])).
  reflexivity.
Defined.

(* ------------------------------------------------------------------ *)
(** ** Adding, then listing *)

(** X26. A task that add-task has just stored shows up in its owner's
    list: on a store whose due dates parse, an accepted add followed by
    [index] for the same user renders a list that contains the new task,
    with the store left as the add made it. *)
Theorem add_task_then_index :
  forall (now later : clock) (form : form_data) (user_id : Z)
         (username : option str) (db : database) (t : Task.row),
    due_dates_parse db ->
    let session := mksession (Some user_id) username in
    let db' := db_after (add_task now form session db) in
    tasks db' = tasks db ++ [t] ->
    exists views,
      index later session db' = mkoutcome db' [] (RenderIndex views)
      /\ In t (map view_task views).
Proof.
  intros now later form user_id username db t Hwf session db' Hnew.
  destruct (add_task_effect now form session db)
    as (_ & [E | (t0 & E & Hown & Hparse)]); fold db' in E.
  { rewrite E in Hnew. exfalso.
    apply (f_equal (@length Task.row)) in Hnew.
    rewrite length_app in Hnew. simpl in Hnew. lia. }
  rewrite Hnew in E. apply app_inj_tail in E as (_ & ->).
  assert (Hwf' : due_dates_parse db').
  { intros r. rewrite Hnew, in_app_iff.
    intros [Hr | [<- | []]]; [apply Hwf; assumption | exact Hparse]. }
  destruct (index_renders later user_id username Hwf')
    as (views & Ei & Hmap & _).
  exists views. split; [exact Ei|]. rewrite Hmap.
  apply (Permutation_in _ (Permutation_sym (order_by_created_at_desc_perm _))).
  unfold tasks_of. apply filter_In. rewrite Hnew, in_app_iff. split.
  - right. left. reflexivity.
  - cbn [session_user_id session] in Hown. injection Hown as ->.
    apply Z.eqb_refl.
Qed.

Lemma add_task_then_index_witness :
  let form : form_data :=
    [(py "title", py "Buy milk"); (py "priority", py "Low")] in
  let session := mksession (Some 1%Z) None in
  let t := Task.mk 1 (py "Buy milk") None (Some (py "Low")) None
             (py "Not Started") 0 false 5 1 in
  let db' := db_after (add_task (mkclock (mkdate 2026 11 3) 5) form session
                         (mkdb [] [])) in
  exists views,
    index (mkclock (mkdate 2026 11 4) 9) session db'
    = mkoutcome db' [] (RenderIndex views)
    /\ In t (map view_task views).
Proof.
  intros form session t db'.
  apply (@add_task_then_index (mkclock (mkdate 2026 11 3) 5)
           (mkclock (mkdate 2026 11 4) 9) form 1 None (mkdb [] []) t).
  - intros r [].
  - reflexivity.
Defined.
